(** * nlcd-county: the land-cover animation pipeline of [main.py]

    A shallow embedding of [get_extent] and [main] (main.py, lines 32-83).
    The program is a short sequence of calls into geopandas, rasterio, numpy
    and imageio.  The Python and numpy semantics the code relies on
    ([range], boolean-mask assignment, broadcasting, [Series.squeeze]) are
    written out; what the remote rasters, the projection library and the GIF
    encoder answer is a field of the [World] the program runs in. *)

From stdpp Require Import gmap strings list fin_maps.
From Stdlib Require Import ZArith Lia.

Local Open Scope Z_scope.

(** ** Exceptions and fallible results *)

(** The Python exceptions that can escape [main]. *)
Inductive exn : Type :=
  | ValueError
  | TypeError
  | IndexError
  | RuntimeError
  | RasterioIOError
  | FileNotFoundError.

Inductive result (A : Type) : Type :=
  | Ok (a : A)
  | Raise (e : exn).
Arguments Ok {A} a.
Arguments Raise {A} e.

Global Instance result_ret : MRet result := λ A a, Ok a.
Global Instance result_bind : MBind result := λ A B f r,
  match r with
  | Ok a => f a
  | Raise e => Raise e
  end.

Definition is_ok {A} (r : result A) : bool :=
  match r with Ok _ => true | Raise _ => false end.

(** ** Python's [range(start, stop, step)] *)

(** Number of elements, as CPython computes it. *)
Definition range_len (start stop step : Z) : Z :=
  if 0 <? step then
    if start <? stop then (stop - start - 1) / step + 1 else 0
  else
    if stop <? start then (start - stop - 1) / (- step) + 1 else 0.

(** [range] raises [ValueError] for a zero step; otherwise element [i] is
    [start + i * step]. *)
Definition py_range (start stop step : Z) : result (list Z) :=
  if step =? 0 then Raise ValueError
  else Ok (map (λ i : nat, start + Z.of_nat i * step)
               (seq 0 (Z.to_nat (range_len start stop step)))).

(** ** numpy arrays *)

(** A two-dimensional array: its shape (height, width) and its cells in row
    order.  The third axis of an image (the four channels) is the cell type
    [Pixel] below. *)
Record ndarray (A : Type) : Type := NdArray {
  shape : nat * nat;
  flat : list A
}.
Arguments NdArray {A} shape flat.
Arguments shape {A} n.
Arguments flat {A} n.

Definition wf {A} (a : ndarray A) : Prop :=
  length (flat a) = (fst (shape a) * snd (shape a))%nat.

(** The cell at row [r], column [c]. *)
Definition pixel {A} (a : ndarray A) (r c : nat) : option A :=
  if decide (r < fst (shape a) ∧ c < snd (shape a))%nat
  then flat a !! (r * snd (shape a) + c)%nat
  else None.

(** [data[mask] = value] (main.py, line 59).  numpy first checks that the
    boolean index has the shape of the array (IndexError), then converts the
    value to the array's dtype, which fails for [None] (TypeError).  The
    sentinel is taken to be a value of the band's dtype. *)
Definition setitem_mask (data : ndarray Z) (mask : ndarray bool)
    (value : option Z) : result (ndarray Z) :=
  if decide (shape mask = shape data) then
    match value with
    | None => Raise TypeError
    | Some v =>
        Ok (NdArray (shape data)
              (imap (λ i d, if decide (flat mask !! i = Some true) then v else d)
                    (flat data)))
    end
  else Raise IndexError.

(** ** Recoloring (main.py, lines 62-64) *)

(** One cell of the (height, width, 4) uint8 image. *)
Definition Pixel : Type := Byte.byte * Byte.byte * Byte.byte * Byte.byte.

Definition zero_pixel : Pixel := (Byte.x00, Byte.x00, Byte.x00, Byte.x00).

(** [np.zeros] of shape (height, width, 4) and dtype uint8 (line 62). *)
Definition zeros (sh : nat * nat) : ndarray Pixel :=
  NdArray sh (replicate (fst sh * snd sh) zero_pixel).

(** Broadcasting a value of shape (k,) to the indexing result of shape
    (N, 4): k = 4 fills the channels in order, k = 1 repeats the value, and
    every other k is a shape mismatch, whatever N is. *)
Definition broadcast4 (value : list Byte.byte) : result Pixel :=
  match value with
  | [a; b; c; d] => Ok (a, b, c, d)
  | [x] => Ok (x, x, x, x)
  | _ => Raise ValueError
  end.

(** [rgb_image[data == cls] = value] *)
Definition setitem_where (rgb_image : ndarray Pixel) (data : ndarray Z)
    (cls : Z) (value : list Byte.byte) : result (ndarray Pixel) :=
  px ← broadcast4 value;
  Ok (NdArray (shape rgb_image)
        (imap (λ i p, if decide (flat data !! i = Some cls) then px else p)
              (flat rgb_image))).

(** The loop [for cls, rgb in ....items(): rgb_image[data == cls] = rgb[:4]]
    over the items in the order given. *)
Fixpoint recolor_items (data : ndarray Z) (items : list (Z * list Byte.byte))
    (rgb_image : ndarray Pixel) : result (ndarray Pixel) :=
  match items with
  | [] => Ok rgb_image
  | (cls, rgb) :: rest =>
      rgb_image' ← setitem_where rgb_image data cls (take 4 rgb);
      recolor_items data rest rgb_image'
  end.

(** The Palette Recolorer: lines 62-64 for a colormap dictionary.  The keys
    of a dictionary are distinct, so the order of the items does not show in
    the result (see [recolor_items_perm]). *)
Definition recolor (data : ndarray Z) (colormap : gmap Z (list Byte.byte))
    : result (ndarray Pixel) :=
  recolor_items data (map_to_list colormap) (zeros (shape data)).

(** The first four channel values of a colormap entry, as a pixel. *)
Definition first_four (rgb : list Byte.byte) : option Pixel :=
  match take 4 rgb with
  | [a; b; c; d] => Some (a, b, c, d)
  | _ => None
  end.

(** ** The animated output and the encoder *)

Definition Frame : Type := ndarray Pixel.

(** What [imageio.mimsave] is given: the ordered frames, the playback rate
    and the loop count (0 = loop forever). *)
Record AnimatedOutput : Type := {
  frames : list Frame;
  fps : Z;
  loop : Z
}.

(** What [imageio.mimsave] does with that: it writes the encoded bytes to
    the path, or raises, possibly after leaving a partial file there. *)
Inductive MimOutcome : Type :=
  | Saved (encoded : list Byte.byte)
  | Failed (e : exn) (partial : option (list Byte.byte)).

(** ** Boundaries, raster sources and the world *)

Section Pipeline.
Context {Geometry CRS : Type}.

(** A record of the [USA_adm2] layer. *)
Record Row : Type := {
  NAME_1 : string;
  NAME_2 : string;
  geometry : Geometry
}.

Record GeoDataFrame : Type := {
  crs : option CRS;
  rows : list Row
}.

(** What [.geometry.squeeze()] gives: the geometry itself for a series of
    exactly one element, the series unchanged otherwise. *)
Inductive Extent : Type :=
  | Scalar (g : Geometry)
  | GeoSeries (series_crs : option CRS) (gs : list Geometry).

Record Window : Type := {
  col_off : Z;
  row_off : Z;
  width : Z;
  height : Z
}.

(** An open raster ([rio.open]).  [raster_geometry_mask] is called with
    [crop=True, invert=False]: the mask is [true] where the pixel is outside
    the shapes; the transform it also returns is not used by [main]. *)
Record DatasetReader : Type := {
  profile_crs : option CRS;
  nodata : option Z;
  colormap : result (gmap Z (list Byte.byte));
  raster_geometry_mask : list Extent → result (ndarray bool * Window);
  read : Window → result (ndarray Z)
}.

(** The environment of one run: the boundary layer loaded at import time,
    the projection library, the remote tiles by year ([URL] formatted with
    the year) and the GIF encoder.  It does not change during a run. *)
Record World : Type := {
  USA : GeoDataFrame;
  pyproj_transform : CRS → CRS → Geometry → Geometry;
  rio_open : Z → result DatasetReader;
  imageio_encode : string → AnimatedOutput → MimOutcome
}.

(** ** Effects: the trace of calls and the file system *)

Inductive Message : Type :=
  | Downloading (year : Z) (county : string)
  | PreparingGIF.

Inductive Event : Type :=
  | StWrite (m : Message)
  | RioOpen (year : Z)
  | RioClose (year : Z)
  | RasterGeometryMask (year : Z) (shapes : list Extent)
  | MimSave (path : string) (out : AnimatedOutput)
  | StatusComplete
  | FileOpen (path : string)
  | StMarkdown (contents : list Byte.byte).

Record State : Type := {
  trace : list Event;
  fs : gmap string (list Byte.byte)
}.

(** State passing with exceptions; the state reached is kept on failure. *)
Definition M (A : Type) : Type := State → result A * State.

Global Instance M_ret : MRet M := λ A a s, (Ok a, s).
Global Instance M_bind : MBind M := λ A B f m s,
  match m s with
  | (Ok a, s') => f a s'
  | (Raise e, s') => (Raise e, s')
  end.

Definition lift {A} (r : result A) : M A := λ s, (r, s).

Definition log (e : Event) (s : State) : State :=
  {| trace := trace s ++ [e]; fs := fs s |}.

Definition emit (e : Event) : M unit := λ s, (Ok tt, log e s).

(** [with rio.open(URL.format(year=year)) as src: body]: the handle is
    closed when the body returns and when it raises. *)
Definition closing {A} (year : Z) (body : M A) : M A := λ s,
  let '(r, s') := body s in (r, log (RioClose year) s').

Definition with_open {A} (w : World) (year : Z) (body : DatasetReader → M A)
    : M A :=
  emit (RioOpen year);;
  src ← lift (rio_open w year);
  closing year (body src).

(** ** [get_extent] (main.py, lines 32-39) *)

(** [USA.query] with the expression [NAME_1 == ... and NAME_2 == ...]: the
    records whose two name fields equal the requested names.  The names
    are spliced into the expression between double quotes, so they are
    taken not to contain a double quote or a backslash (the names the UI
    offers come from the layer itself). *)
Definition query (df : GeoDataFrame) (state county : string) : GeoDataFrame :=
  {| crs := crs df;
     rows := filter (λ r, NAME_1 r = state ∧ NAME_2 r = county) (rows df) |}.

(** [.to_crs(target)]: a frame without CRS cannot be transformed, and a
    target is required. *)
Definition to_crs (w : World) (df : GeoDataFrame) (target : option CRS)
    : result GeoDataFrame :=
  match crs df, target with
  | Some from, Some to =>
      Ok {| crs := Some to;
            rows := map (λ r, {| NAME_1 := NAME_1 r; NAME_2 := NAME_2 r;
                                 geometry := pyproj_transform w from to (geometry r) |})
                        (rows df) |}
  | _, _ => Raise ValueError
  end.

(** [.geometry.squeeze()] *)
Definition squeeze (df : GeoDataFrame) : Extent :=
  match rows df with
  | [r] => Scalar (geometry r)
  | rs => GeoSeries (crs df) (map geometry rs)
  end.

(** The part of [get_extent] inside the [with] block. *)
Definition extent_in (w : World) (state county : string) (src : DatasetReader)
    : result Extent :=
  df ← to_crs w (query (USA w) state county) (profile_crs src);
  Ok (squeeze df).

Definition get_extent (w : World) (state county : string) : M Extent :=
  with_open w 1985 (λ src, lift (extent_in w state county src)).

(** ** [main] (main.py, lines 42-83) *)

(** The Raster Clipper, lines 55-59: mask, windowed read, overwrite. *)
Definition clip (src : DatasetReader) (shapes : list Extent)
    : result (ndarray Z) :=
  '(mask, win) ← raster_geometry_mask src shapes;
  data ← read src win;
  setitem_mask data mask (nodata src).

(** Lines 62-64 on an open source. *)
Definition recolor_src (src : DatasetReader) (data : ndarray Z)
    : result Frame :=
  cm ← colormap src;
  recolor data cm.

(** The body of the loop, lines 50-65. *)
Definition process_year (w : World) (state county : string)
    (images : list Frame) (year : Z) : M (list Frame) :=
  emit (StWrite (Downloading year county));;
  with_open w year (λ src,
    extent ← get_extent w state county;
    emit (RasterGeometryMask year [extent]);;
    data ← lift (clip src [extent]);
    rgb_image ← lift (recolor_src src data);
    mret (images ++ [rgb_image])).

Fixpoint for_years (w : World) (state county : string) (years : list Z)
    (images : list Frame) : M (list Frame) :=
  match years with
  | [] => mret images
  | year :: rest =>
      images' ← process_year w state county images year;
      for_years w state county rest images'
  end.

(** [imageio.mimsave(path, images, fps=.., loop=..)] *)
Definition mimsave (w : World) (path : string) (out : AnimatedOutput)
    : M unit := λ s,
  let s1 := log (MimSave path out) s in
  match imageio_encode w path out with
  | Saved encoded =>
      (Ok tt, {| trace := trace s1; fs := <[path := encoded]> (fs s1) |})
  | Failed e partial =>
      (Raise e,
       {| trace := trace s1;
          fs := match partial with
                | Some b => <[path := b]> (fs s1)
                | None => fs s1
                end |})
  end.

(** [with open(path, 'rb') as file_: contents = file_.read()] *)
Definition open_read (path : string) : M (list Byte.byte) := λ s,
  match fs s !! path with
  | Some contents => (Ok contents, log (FileOpen path) s)
  | None => (Raise FileNotFoundError, s)
  end.

Definition main (w : World) (start stop step : Z) (state county : string)
    : M unit :=
  years ← lift (py_range start stop step);
  images ← for_years w state county years [];
  emit (StWrite PreparingGIF);;
  mimsave w "nlcd.gif" {| frames := images; fps := 4; loop := 0 |};;
  emit StatusComplete;;
  contents ← open_read "nlcd.gif";
  emit (StMarkdown contents).

(** A run from an empty trace and a given file system. *)
Definition run {A} (m : M A) (files : gmap string (list Byte.byte))
    : result A * State :=
  m {| trace := []; fs := files |}.

(** ** Reading a trace *)

(** The years the clipper was called for, in call order. *)
Definition clip_years (tr : list Event) : list Z :=
  omap (λ e, match e with RasterGeometryMask y _ => Some y | _ => None end) tr.

(** The years a progress message was written for. *)
Definition download_years (tr : list Event) : list Z :=
  omap (λ e, match e with StWrite (Downloading y _) => Some y | _ => None end) tr.

(** The years of the tiles opened. *)
Definition open_years (tr : list Event) : list Z :=
  omap (λ e, match e with RioOpen y => Some y | _ => None end) tr.

(** The shapes handed to [raster_geometry_mask]. *)
Definition mask_shapes (tr : list Event) : list (list Extent) :=
  omap (λ e, match e with RasterGeometryMask _ sh => Some sh | _ => None end) tr.

(** The calls of [imageio.mimsave]. *)
Definition mimsave_calls (tr : list Event) : list (string * AnimatedOutput) :=
  omap (λ e, match e with MimSave p out => Some (p, out) | _ => None end) tr.

(** What was shown to the user. *)
Definition displayed (tr : list Event) : list (list Byte.byte) :=
  omap (λ e, match e with StMarkdown b => Some b | _ => None end) tr.

(** ** What one run looks like *)

(** The value of [get_extent]: it depends on the 1985 tile and on the
    request, and on nothing else. *)
Definition boundary (w : World) (state county : string) : result Extent :=
  src ← rio_open w 1985;
  extent_in w state county src.

(** The frame of one year: lines 52-65 without the effects. *)
Definition frame_of (w : World) (state county : string) (year : Z)
    (frame : Frame) : Prop :=
  ∃ src ext data,
    rio_open w year = Ok src ∧ boundary w state county = Ok ext ∧
    clip src [ext] = Ok data ∧ recolor_src src data = Ok frame.

(** The calls of an iteration that reaches the clipper. *)
Definition year_events (county : string) (ext : Extent) (year : Z)
    : list Event :=
  [ StWrite (Downloading year county); RioOpen year;
    RioOpen 1985; RioClose 1985;
    RasterGeometryMask year [ext]; RioClose year ].

(** Calls among which there is neither a clipper call nor an encoder call. *)
Definition quiet (evs : list Event) : Prop :=
  clip_years evs = [] ∧ mimsave_calls evs = [].

(** The traces of the loop: iterations that reach the clipper, then possibly
    the calls of an iteration that fails before it. *)
Inductive loop_trace (w : World) (state county : string)
    : list Event → Prop :=
  | loop_done : loop_trace w state county []
  | loop_year ext year evs :
      boundary w state county = Ok ext →
      loop_trace w state county evs →
      loop_trace w state county (year_events county ext year ++ evs)
  | loop_failed evs : quiet evs → loop_trace w state county evs.

End Pipeline.

Arguments Row : clear implicits.
Arguments GeoDataFrame : clear implicits.
Arguments Extent : clear implicits.
Arguments DatasetReader : clear implicits.
Arguments World : clear implicits.
Arguments Event : clear implicits.
Arguments State : clear implicits.
Arguments M : clear implicits.

(** ** The palette as a function *)

(** The pixel a colormap entry is written as: its first four values, or
    its single value repeated. *)
Definition entry_pixel (rgb : list Byte.byte) : Pixel :=
  match broadcast4 (take 4 rgb) with
  | Ok px => px
  | Raise _ => zero_pixel
  end.

(** The colour of a class code: its entry's pixel, zero without entry. *)
Definition colour (cm : gmap Z (list Byte.byte)) (code : Z) : Pixel :=
  match cm !! code with
  | Some rgb => entry_pixel rgb
  | None => zero_pixel
  end.

(** ** The request form: [ui] (main.py, lines 86-108)

    The page calls of Streamlit ([set_page_config], [title], [image],
    [columns]) draw the page and are taken to return; the values of the
    widgets are the input. *)

(** [Series.unique()]: the distinct values in order of first appearance. *)
Fixpoint unique_from (seen : list string) (l : list string) : list string :=
  match l with
  | [] => []
  | x :: l' =>
      if decide (x ∈ seen) then unique_from seen l'
      else x :: unique_from (x :: seen) l'
  end.

Definition unique (l : list string) : list string := unique_from [] l.

(** [st.number_input(label, min_value=.., max_value=.., value=..)]; without
    [value] the widget starts at [min_value]. *)
Record NumberInput : Type := {
  min_value : Z;
  max_value : Z;
  value : Z
}.

Definition start_box : NumberInput :=
  {| min_value := 1985; max_value := 2023; value := 1985 |}.
Definition stop_box : NumberInput :=
  {| min_value := 1985; max_value := 2023; value := 2023 |}.
Definition step_box : NumberInput :=
  {| min_value := 1; max_value := 10; value := 8 |}.

(** What the widget returns: what the user entered, its start value if
    nothing was entered. *)
Definition number_input (box : NumberInput) (entered : option Z) : Z :=
  default (value box) entered.

(** Streamlit accepts an entry only within the bounds of the widget. *)
Definition within (box : NumberInput) (entered : option Z) : Prop :=
  ∀ v, entered = Some v → min_value box ≤ v ≤ max_value box.

(** [st.selectbox(label, options)]: the option picked, the first one if
    none was. *)
Definition selectbox (options : list string) (index : nat) : string :=
  match options !! index with
  | Some x => x
  | None => default "Select" (head options)
  end.

(** The state of the widgets when the script runs. *)
Record Session : Type := {
  start_entry : option Z;
  stop_entry : option Z;
  step_entry : option Z;
  state_index : nat;
  county_index : nat
}.

Definition accepted (sess : Session) : Prop :=
  within start_box (start_entry sess) ∧
  within stop_box (stop_entry sess) ∧
  within step_box (step_entry sess).

(** The arguments of a call of [main]. *)
Record Request : Type := {
  req_start : Z;
  req_stop : Z;
  req_step : Z;
  req_state : string;
  req_county : string
}.

Section Interface.
Context {Geometry CRS : Type}.

(** [USA.query] with the expression [NAME_1 == ...] (line 104). *)
Definition query_state (df : GeoDataFrame Geometry CRS) (state : string)
    : GeoDataFrame Geometry CRS :=
  {| crs := crs df; rows := filter (λ r, NAME_1 r = state) (rows df) |}.

(** Line 100. *)
Definition state_options (usa : GeoDataFrame Geometry CRS) : list string :=
  "Select" :: unique (map NAME_1 (rows usa)).

(** Lines 104-105. *)
Definition county_options (usa : GeoDataFrame Geometry CRS) (state : string)
    : list string :=
  "Select" :: unique (map NAME_2 (rows (query_state usa state))).

(** Lines 93-108 up to the call: the request [ui] makes, if it makes one. *)
Definition ui_request (usa : GeoDataFrame Geometry CRS) (sess : Session)
    : option Request :=
  let start := number_input start_box (start_entry sess) in
  let stop := number_input stop_box (stop_entry sess) in
  let step := number_input step_box (step_entry sess) in
  let state := selectbox (state_options usa) (state_index sess) in
  let county :=
    if decide (state ≠ "Select")
    then selectbox (county_options usa state) (county_index sess)
    else "Select" in
  if decide (county ≠ "Select")
  then Some {| req_start := start; req_stop := stop; req_step := step;
               req_state := state; req_county := county |}
  else None.

Definition ui (w : World Geometry CRS) (sess : Session) : M Geometry CRS unit :=
  match ui_request (USA w) sess with
  | Some q =>
      main w (req_start q) (req_stop q) (req_step q) (req_state q) (req_county q)
  | None => mret tt
  end.

(** ** A run in closed form

    What the loop returns and what it calls, written as functions of the
    world; [for_years_eq] and [main_eq] show that the code computes them. *)

(** The years whose tile was closed. *)
Definition close_years (tr : list (Event Geometry CRS)) : list Z :=
  omap (λ e, match e with RioClose y => Some y | _ => None end) tr.

(** The frame of one year, or the exception of its iteration. *)
Definition year_result (w : World Geometry CRS) (state county : string)
    (year : Z) : result Frame :=
  src ← rio_open w year;
  ext ← boundary w state county;
  data ← clip src [ext];
  recolor_src src data.

(** The calls of one iteration. *)
Definition year_trace (w : World Geometry CRS) (state county : string)
    (year : Z) : list (Event Geometry CRS) :=
  StWrite (Downloading year county) :: RioOpen year ::
  match rio_open w year with
  | Raise _ => []
  | Ok _ =>
      RioOpen 1985 ::
      (if is_ok (rio_open w 1985) then [RioClose 1985] else []) ++
      match boundary w state county with
      | Ok ext => [RasterGeometryMask year [ext]]
      | Raise _ => []
      end ++
      [RioClose year]
  end.

Fixpoint years_result (w : World Geometry CRS) (state county : string)
    (years : list Z) (images : list Frame) : result (list Frame) :=
  match years with
  | [] => Ok images
  | year :: rest =>
      frame ← year_result w state county year;
      years_result w state county rest (images ++ [frame])
  end.

Fixpoint years_trace (w : World Geometry CRS) (state county : string)
    (years : list Z) : list (Event Geometry CRS) :=
  match years with
  | [] => []
  | year :: rest =>
      year_trace w state county year ++
      if is_ok (year_result w state county year)
      then years_trace w state county rest else []
  end.

(** The outcome of [main] on given files. *)
Definition main_outcome (w : World Geometry CRS) (start stop step : Z)
    (state county : string) (files : gmap string (list Byte.byte))
    : result unit * State Geometry CRS :=
  match py_range start stop step with
  | Raise e => (Raise e, {| trace := []; fs := files |})
  | Ok years =>
      let tr := years_trace w state county years in
      match years_result w state county years [] with
      | Raise e => (Raise e, {| trace := tr; fs := files |})
      | Ok images =>
          let out := {| frames := images; fps := 4; loop := 0 |} in
          match imageio_encode w "nlcd.gif" out with
          | Saved encoded =>
              (Ok tt,
               {| trace := tr ++ [StWrite PreparingGIF; MimSave "nlcd.gif" out;
                                  StatusComplete; FileOpen "nlcd.gif";
                                  StMarkdown encoded];
                  fs := <["nlcd.gif" := encoded]> files |})
          | Failed e partial =>
              (Raise e,
               {| trace := tr ++ [StWrite PreparingGIF; MimSave "nlcd.gif" out];
                  fs := match partial with
                        | Some b => <["nlcd.gif" := b]> files
                        | None => files
                        end |})
          end
      end
  end.

End Interface.

(** ** The claims as the specification words them

    Used to compare the specification's reading with what the code does. *)

(** Specification, 4.3: a colour tuple with fewer than four values keeps the
    zero fill in the channels it does not supply. *)
Definition zero_fill (rgb : list Byte.byte) : Pixel :=
  (nth 0 rgb Byte.x00, nth 1 rgb Byte.x00, nth 2 rgb Byte.x00, nth 3 rgb Byte.x00).


(** ** A small world to run the pipeline in *)

Module Example.

(** Geometries are rings of integer coordinates and a CRS is its EPSG code;
    the toy projection shifts by the difference of the codes. *)
Definition Geom : Type := list (Z * Z).
Definition Epsg : Type := Z.

Definition shift (from to : Epsg) (g : Geom) : Geom :=
  map (λ p, (fst p + (to - from), snd p + (to - from))) g.

Definition travis : Geom := [(0, 0); (4, 0); (4, 4); (0, 4)].
Definition dallas : Geom := [(10, 10); (12, 10); (12, 12)].
Definition union_a : Geom := [(20, 20); (21, 20); (21, 21)].
Definition union_b : Geom := [(30, 30); (31, 30); (31, 31)].

Definition usa : GeoDataFrame Geom Epsg :=
  {| crs := Some 4326;
     rows := [ {| NAME_1 := "Texas"; NAME_2 := "Travis"; geometry := travis |};
               {| NAME_1 := "Texas"; NAME_2 := "Dallas"; geometry := dallas |};
               {| NAME_1 := "Ohio"; NAME_2 := "Union"; geometry := union_a |};
               {| NAME_1 := "Ohio"; NAME_2 := "Union"; geometry := union_b |} ] |}.

(** Open water, developed land and the sentinel. *)
Definition palette : gmap Z (list Byte.byte) :=
  {[ 11 := [Byte.x46; Byte.x6b; Byte.x9f; Byte.xff];
     21 := [Byte.xde; Byte.xc5; Byte.xc5; Byte.xff];
     250 := [Byte.x00; Byte.x00; Byte.x00; Byte.x00] ]}.

Definition window22 : Window :=
  {| col_off := 10; row_off := 20; width := 2; height := 2 |}.

(** A tile whose window for any boundary is 2 x 2, the corners outside. *)
Definition tile (codes : list Z) : DatasetReader Geom Epsg :=
  {| profile_crs := Some 5070;
     nodata := Some 250;
     colormap := Ok palette;
     raster_geometry_mask := λ _,
       Ok (NdArray (2, 2)%nat [true; false; false; true], window22);
     read := λ _, Ok (NdArray (2, 2)%nat codes) |}.


(** A stand-in encoder: a header and one byte per frame; like imageio it
    refuses an empty sequence. *)
Definition encode (path : string) (out : AnimatedOutput) : MimOutcome :=
  match frames out with
  | [] => Failed RuntimeError None
  | fs => Saved ([Byte.x47; Byte.x49; Byte.x46] ++ map (λ _, Byte.x2c) fs)
  end.

(** Tiles for 1985, 1990 and 1993 on one grid; no other year is served. *)
Definition world : World Geom Epsg :=
  {| USA := usa;
     pyproj_transform := shift;
     rio_open := λ year,
       if decide (year = 1985) then Ok (tile [11; 11; 21; 21])
       else if decide (year = 1990) then Ok (tile [11; 21; 21; 21])
       else if decide (year = 1993) then Ok (tile [21; 21; 21; 99])
       else Raise RasterioIOError;
     imageio_encode := encode |}.


End Example.

Module Runs.
Import Example.

(** The run of the specification's scenario: Travis County, 1985 to 1994
    in steps of 8. *)
Definition scenario : result () * State Geom Epsg :=
  run (main world 1985 1994 8 "Texas" "Travis") ∅.




(** Travis County in the CRS of the tiles. *)
Definition travis_5070 : Extent Geom Epsg :=
  Scalar [(744, 744); (748, 744); (748, 748); (744, 748)].

End Runs.

(** ** Further worlds and form states *)

Module Variants.
Import Example.

(** No tile for 1985: only 1990 is served. *)
Definition world_without_1985 : World Geom Epsg :=
  {| USA := usa;
     pyproj_transform := shift;
     rio_open := λ year,
       if decide (year = 1990) then Ok (tile [11; 21; 21; 21])
       else Raise RasterioIOError;
     imageio_encode := encode |}.

(** The boundary layer carries no CRS. *)
Definition world_naive : World Geom Epsg :=
  {| USA := {| crs := None; rows := rows usa |};
     pyproj_transform := shift;
     rio_open := rio_open world;
     imageio_encode := encode |}.

(** The form with Texas and Travis chosen and the numbers untouched:
    1985 to 2023 in steps of 8. *)
Definition chosen : Session :=
  {| start_entry := None; stop_entry := None; step_entry := None;
     state_index := 1; county_index := 1 |}.

(** The same names with start 2000 and stop 1990. *)
Definition reversed : Session :=
  {| start_entry := Some 2000; stop_entry := Some 1990; step_entry := None;
     state_index := 1; county_index := 1 |}.

(** The form as it first appears. *)
Definition untouched : Session :=
  {| start_entry := None; stop_entry := None; step_entry := None;
     state_index := 0; county_index := 0 |}.

(** The frame of 1993 in [world]. *)
Definition frame_1993 : Frame :=
  NdArray (2, 2)%nat
    [zero_pixel;
     (Byte.xde, Byte.xc5, Byte.xc5, Byte.xff);
     (Byte.xde, Byte.xc5, Byte.xc5, Byte.xff);
     zero_pixel].


(** A run backwards in time: 1993, then 1985. *)
Definition descending : result () * State Geom Epsg :=
  run (main world 1993 1984 (-8) "Texas" "Travis") ∅.

End Variants.

(** * Properties *)

(** ** [range] *)

Lemma py_range_zero start stop : py_range start stop 0 = Raise ValueError.
Proof. reflexivity. Qed.

Lemma py_range_ok start stop step :
  step ≠ 0 →
  py_range start stop step =
    Ok (map (λ i : nat, start + Z.of_nat i * step)
            (seq 0 (Z.to_nat (range_len start stop step)))).
Proof.
  intros Hstep. unfold py_range.
  destruct (Z.eqb_spec step 0); [contradiction | reflexivity].
Qed.


Lemma py_range_backwards start stop step :
  0 < step → stop ≤ start → py_range start stop step = Ok [].
Proof.
  intros Hstep Hle. rewrite py_range_ok by lia. unfold range_len.
  destruct (Z.ltb_spec 0 step); [| lia].
  destruct (Z.ltb_spec start stop); [lia | reflexivity].
Qed.

Lemma range_len_nonneg start stop step : 0 ≤ range_len start stop step.
Proof.
  unfold range_len.
  destruct (Z.ltb_spec 0 step), (Z.ltb_spec start stop), (Z.ltb_spec stop start);
    try lia.
  - pose proof (Z.div_pos (stop - start - 1) step). lia.
  - destruct (Z.eq_dec step 0) as [-> | Hne].
    + simpl. rewrite Z.div_0_r. lia.
    + pose proof (Z.div_pos (start - stop - 1) (- step)). lia.
Qed.

(** For a positive step, index [i] is in the range exactly when
    [start + i * step] is below [stop]. *)
Lemma range_len_pos_spec start stop step (i : Z) :
  0 < step → 0 ≤ i →
  i < range_len start stop step ↔ start + i * step < stop.
Proof.
  intros Hstep Hi. unfold range_len.
  destruct (Z.ltb_spec 0 step); [| lia].
  destruct (Z.ltb_spec start stop).
  - pose proof (Z.div_mod (stop - start - 1) step ltac:(lia)).
    pose proof (Z.mod_pos_bound (stop - start - 1) step ltac:(lia)).
    split; intros; nia.
  - split; intros; nia.
Qed.

(** For a negative step the range descends from [start] and stays above
    [stop]. *)
Lemma range_len_neg_spec start stop step (i : Z) :
  step < 0 → 0 ≤ i →
  i < range_len start stop step ↔ stop < start + i * step.
Proof.
  intros Hstep Hi. unfold range_len.
  destruct (Z.ltb_spec 0 step); [lia |].
  destruct (Z.ltb_spec stop start).
  - pose proof (Z.div_mod (start - stop - 1) (- step) ltac:(lia)).
    pose proof (Z.mod_pos_bound (start - stop - 1) (- step) ltac:(lia)).
    split; intros; nia.
  - split; intros; nia.
Qed.

Lemma py_range_lookup start stop step years (i : nat) :
  py_range start stop step = Ok years →
  years !! i =
    if decide (Z.of_nat i < range_len start stop step)
    then Some (start + Z.of_nat i * step) else None.
Proof.
  unfold py_range. destruct (step =? 0); [done |]. intros [= <-].
  rewrite list_lookup_fmap.
  pose proof (range_len_nonneg start stop step).
  case_decide.
  - rewrite lookup_seq_lt by lia. reflexivity.
  - rewrite lookup_seq_ge by lia. reflexivity.
Qed.

Lemma py_range_length start stop step years :
  py_range start stop step = Ok years →
  Z.of_nat (length years) = range_len start stop step.
Proof.
  unfold py_range. destruct (step =? 0); [done |]. intros [= <-].
  rewrite length_map, length_seq.
  pose proof (range_len_nonneg start stop step). lia.
Qed.

(** The half-open range of a positive step: members, order and spacing. *)
Lemma py_range_ascending start stop step :
  1 ≤ step →
  ∃ years, py_range start stop step = Ok years ∧
    (∀ y, y ∈ years ↔ ∃ k, 0 ≤ k ∧ y = start + k * step ∧ y < stop) ∧
    (∀ i j a b, years !! i = Some a → years !! j = Some b →
       (i < j)%nat → a < b) ∧
    (∀ i a, years !! i = Some a → a = start + Z.of_nat i * step).
Proof.
  intros Hstep.
  destruct (py_range start stop step) as [years | e] eqn:Hr.
  2: { rewrite py_range_ok in Hr by lia. done. }
  exists years. split; [done |].
  assert (Hlook : ∀ i a, years !! i = Some a →
            a = start + Z.of_nat i * step ∧ a < stop).
  { intros i a Hi. rewrite (py_range_lookup _ _ _ _ i Hr) in Hi.
    case_decide; [| done]. injection Hi as <-. split; [done |].
    apply range_len_pos_spec; lia. }
  split; [| split].
  - intros y. rewrite list_elem_of_lookup. split.
    + intros [i Hi]. apply Hlook in Hi as [-> ?]. exists (Z.of_nat i). lia.
    + intros (k & Hk & -> & Hlt). exists (Z.to_nat k).
      rewrite (py_range_lookup _ _ _ _ _ Hr). rewrite Z2Nat.id by done.
      rewrite decide_True; [done |]. apply range_len_pos_spec; lia.
  - intros i j a b Hi Hj Hij.
    apply Hlook in Hi as [-> _]. apply Hlook in Hj as [-> _]. nia.
  - intros i a Hi. by apply Hlook in Hi as [-> _].
Qed.

(** ** Masked assignment *)

Lemma pixel_lookup {A B} (a : ndarray A) (b : ndarray B) r c :
  shape a = shape b →
  pixel a r c = if decide (r < fst (shape b) ∧ c < snd (shape b))%nat
                then flat a !! (r * snd (shape b) + c)%nat else None.
Proof. intros Hs. unfold pixel. by rewrite Hs. Qed.

Lemma setitem_mask_ok data mask value out :
  setitem_mask data mask value = Ok out →
  ∃ v, value = Some v ∧ shape mask = shape data ∧ shape out = shape data ∧
    length (flat out) = length (flat data) ∧
    ∀ i, flat out !! i =
      (λ d, if decide (flat mask !! i = Some true) then v else d) <$> flat data !! i.
Proof.
  unfold setitem_mask. case_decide as Hs; [| done].
  destruct value as [v |]; [| done]. intros [= <-].
  exists v. simpl. rewrite length_imap.
  repeat split; try done. intros i. by rewrite list_lookup_imap.
Qed.

Lemma setitem_mask_total data mask v :
  shape mask = shape data → is_ok (setitem_mask data mask (Some v)) = true.
Proof. intros Hs. unfold setitem_mask. by rewrite decide_True. Qed.

(** Masking a masked array again leaves it as it is. *)
Lemma setitem_mask_idempotent data mask value out :
  setitem_mask data mask value = Ok out →
  setitem_mask out mask value = Ok out.
Proof.
  intros Hok. destruct (setitem_mask_ok _ _ _ _ Hok) as (v & -> & Hs & Hso & _ & Hl).
  unfold setitem_mask. rewrite decide_True by congruence.
  f_equal. destruct out as [sh cells]. simpl in *. f_equal.
  apply list_eq. intros i. rewrite list_lookup_imap, Hl.
  destruct (flat data !! i) as [d |]; simpl; [| done].
  by case_decide.
Qed.

Lemma setitem_mask_wf data mask value out :
  setitem_mask data mask value = Ok out → wf data → wf out.
Proof.
  intros Hok. destruct (setitem_mask_ok _ _ _ _ Hok) as (v & _ & _ & Hs & Hl & _).
  unfold wf. by rewrite Hs, Hl.
Qed.

Lemma setitem_mask_pixel data mask value out r c d :
  setitem_mask data mask value = Ok out →
  pixel data r c = Some d →
  ∃ v, value = Some v ∧
    (pixel mask r c = Some true → pixel out r c = Some v) ∧
    (pixel mask r c = Some false → pixel out r c = Some d).
Proof.
  intros Hok Hd.
  destruct (setitem_mask_ok _ _ _ _ Hok) as (v & -> & Hs & Hso & _ & Hl).
  exists v. split; [done |].
  rewrite (pixel_lookup mask data), (pixel_lookup out data) by done.
  unfold pixel in Hd. case_decide; [| done].
  rewrite Hl, Hd. simpl. split; intros Hm.
  - by rewrite decide_True.
  - rewrite decide_False; [done | congruence].
Qed.

(** ** Recoloring *)

Lemma broadcast4_raise value e : broadcast4 value = Raise e → e = ValueError.
Proof.
  destruct value as [| a [| b [| c [| d [| ? ?]]]]]; simpl; congruence.
Qed.

Lemma broadcast4_first_four rgb :
  (4 ≤ length rgb)%nat →
  ∃ px, broadcast4 (take 4 rgb) = Ok px ∧ first_four rgb = Some px.
Proof.
  intros Hlen. unfold first_four.
  destruct rgb as [| a [| b [| c [| d rest]]]]; simpl in *; try lia.
  destruct rest; by eexists.
Qed.

Lemma broadcast4_short rgb :
  (length rgb < 4)%nat → length rgb ≠ 1%nat →
  broadcast4 (take 4 rgb) = Raise ValueError.
Proof.
  intros Hlen Hne.
  destruct rgb as [| a [| b [| c [| d rest]]]]; simpl in *; try done; lia.
Qed.

Lemma setitem_where_ok rgb_image data cls value out :
  setitem_where rgb_image data cls value = Ok out →
  ∃ px, broadcast4 value = Ok px ∧ shape out = shape rgb_image ∧
    ∀ i, flat out !! i =
      (λ p, if decide (flat data !! i = Some cls) then px else p)
        <$> flat rgb_image !! i.
Proof.
  unfold setitem_where. destruct (broadcast4 value) as [px | e]; [| done].
  simpl. intros [= <-]. exists px. simpl.
  repeat split. intros i. by rewrite list_lookup_imap.
Qed.

Lemma recolor_items_raise data items rgb_image e :
  recolor_items data items rgb_image = Raise e → e = ValueError.
Proof.
  revert rgb_image. induction items as [| [cls rgb] rest IH]; intros img; simpl.
  - done.
  - unfold setitem_where. destruct (broadcast4 (take 4 rgb)) as [px | e'] eqn:Hb.
    + simpl. apply IH.
    + simpl. intros [= <-]. by apply broadcast4_raise in Hb.
Qed.

(** One bad entry anywhere in the colormap makes the loop raise. *)
Lemma recolor_items_bad_entry data items rgb_image cls rgb :
  (cls, rgb) ∈ items → is_ok (broadcast4 (take 4 rgb)) = false →
  recolor_items data items rgb_image = Raise ValueError.
Proof.
  intros Hin Hbad.
  destruct (recolor_items data items rgb_image) as [out | e] eqn:Hr.
  2: { by apply recolor_items_raise in Hr as ->. }
  exfalso. revert rgb_image Hr.
  induction items as [| [cls' rgb'] rest IH]; intros img; simpl.
  - by apply elem_of_nil in Hin.
  - apply elem_of_cons in Hin as [[= <- <-] | Hin].
    + unfold setitem_where. by destruct (broadcast4 (take 4 rgb)).
    + destruct (setitem_where img data cls' (take 4 rgb')); simpl; [| done].
      by apply IH.
Qed.

Lemma recolor_items_total data items rgb_image :
  (∀ cls rgb, (cls, rgb) ∈ items → (4 ≤ length rgb)%nat) →
  is_ok (recolor_items data items rgb_image) = true.
Proof.
  revert rgb_image. induction items as [| [cls rgb] rest IH]; intros img Hall.
  - done.
  - simpl. unfold setitem_where.
    destruct (broadcast4_first_four rgb) as (px & -> & _).
    { apply (Hall cls). by left. }
    simpl. apply IH. intros c v Hin. apply (Hall c). by right.
Qed.

(** Where the loop leaves a cell: untouched if its code is no key, the
    broadcast entry if its code is a key (the keys being distinct). *)
Lemma recolor_items_lookup data items rgb_image out i p :
  recolor_items data items rgb_image = Ok out →
  flat rgb_image !! i = Some p →
  NoDup items.*1 →
  shape out = shape rgb_image ∧
  ((∀ cls, flat data !! i = Some cls → cls ∉ items.*1) → flat out !! i = Some p) ∧
  (∀ cls rgb, flat data !! i = Some cls → (cls, rgb) ∈ items →
     ∃ px, broadcast4 (take 4 rgb) = Ok px ∧ flat out !! i = Some px).
Proof.
  revert rgb_image p. induction items as [| [cls' rgb'] rest IH];
    intros img p Hr Hp Hnd; simpl in Hr.
  - injection Hr as <-. split; [done |]. split; [done |].
    intros cls rgb _ Hin. by apply elem_of_nil in Hin.
  - destruct (setitem_where img data cls' (take 4 rgb')) as [img' |] eqn:Hw;
      [| done].
    simpl in Hr.
    destruct (setitem_where_ok _ _ _ _ _ Hw) as (px' & Hb & Hs & Hl).
    rewrite fmap_cons, NoDup_cons in Hnd. destruct Hnd as [Hfresh Hnd].
    simpl in Hfresh. specialize (Hl i). rewrite Hp in Hl. simpl in Hl.
    destruct (IH _ _ Hr Hl Hnd) as (Hshape & Habs & Hpres).
    split; [congruence |]. split.
    + intros Hno. rewrite Habs.
      * f_equal. case_decide as Hd; [| done].
        exfalso. apply (Hno _ Hd). simpl. by left.
      * intros cls Hd Hin. apply (Hno _ Hd). simpl. by right.
    + intros cls rgb Hd Hin. apply elem_of_cons in Hin as [Heq | Hin].
      * injection Heq as -> ->. exists px'. split; [done |]. rewrite Habs.
        -- by rewrite decide_True.
        -- intros cls Hd'. rewrite Hd in Hd'. by injection Hd' as <-.
      * by apply (Hpres cls rgb).
Qed.

Lemma zeros_lookup sh i :
  (i < fst sh * snd sh)%nat → flat (zeros sh) !! i = Some zero_pixel.
Proof. intros Hi. simpl. by apply lookup_replicate_2. Qed.

Lemma pixel_index_bound (h w r c : nat) :
  (r < h)%nat → (c < w)%nat → (r * w + c < h * w)%nat.
Proof. intros. nia. Qed.

(** What [recolor] returns, when it returns: same shape, zero where the code
    has no entry, the broadcast entry where it has one. *)
Lemma recolor_ok data cm frame r c code :
  recolor data cm = Ok frame →
  pixel data r c = Some code →
  shape frame = shape data ∧
  (cm !! code = None → pixel frame r c = Some zero_pixel) ∧
  (∀ rgb, cm !! code = Some rgb →
     ∃ px, broadcast4 (take 4 rgb) = Ok px ∧ pixel frame r c = Some px).
Proof.
  unfold recolor. intros Hr Hd. unfold pixel in Hd.
  case_decide as Hrc; [| done]. destruct Hrc as [Hrow Hcol].
  pose proof (zeros_lookup (shape data) _ (pixel_index_bound _ _ _ _ Hrow Hcol))
    as Hz.
  destruct (recolor_items_lookup _ _ _ _ _ _ Hr Hz (NoDup_fst_map_to_list cm))
    as (Hs & Habs & Hpres).
  simpl in Hs. split; [done |].
  rewrite (pixel_lookup frame data) by done. rewrite decide_True by done.
  split.
  - intros Hnone. apply Habs. intros cls Hcls Hin.
    rewrite Hd in Hcls. injection Hcls as <-.
    apply list_elem_of_fmap in Hin as ([k v] & -> & Hin).
    apply elem_of_map_to_list in Hin. simpl in Hnone. congruence.
  - intros rgb Hsome. apply (Hpres code rgb); [done |].
    by apply elem_of_map_to_list.
Qed.

Lemma broadcast_raise_where rgb_image data cls value e :
  setitem_where rgb_image data cls value = Raise e → e = ValueError.
Proof.
  unfold setitem_where. destruct (broadcast4 value) eqn:Hb; simpl; [done |].
  intros [= <-]. by apply broadcast4_raise in Hb.
Qed.

Lemma recolor_items_shape data items rgb_image out :
  recolor_items data items rgb_image = Ok out →
  shape out = shape rgb_image ∧ length (flat out) = length (flat rgb_image).
Proof.
  revert rgb_image. induction items as [| [c v] rest IH]; intros img; simpl.
  - by intros [= <-].
  - destruct (setitem_where img data c (take 4 v)) as [img1 |] eqn:Hw;
      simpl; [| done].
    intros Hr. destruct (IH _ Hr) as [-> ->].
    unfold setitem_where in Hw. destruct (broadcast4 (take 4 v)); [| done].
    simpl in Hw. injection Hw as <-. simpl. by rewrite length_imap.
Qed.

Lemma setitem_where_comm rgb_image data c1 v1 c2 v2 :
  c1 ≠ c2 →
  (img ← setitem_where rgb_image data c1 v1; setitem_where img data c2 v2) =
  (img ← setitem_where rgb_image data c2 v2; setitem_where img data c1 v1).
Proof.
  intros Hne. unfold setitem_where.
  destruct (broadcast4 v1) as [p1 | e1] eqn:H1,
           (broadcast4 v2) as [p2 | e2] eqn:H2; simpl; try done.
  - do 2 f_equal. apply list_eq. intros i. rewrite !list_lookup_imap.
    destruct (flat rgb_image !! i) as [p |]; simpl; [| done].
    f_equal. repeat case_decide; congruence.
  - apply broadcast4_raise in H1 as ->. by apply broadcast4_raise in H2 as ->.
Qed.

(** The order in which the items of the dictionary are visited does not
    show: any enumeration of distinct keys gives the same image. *)
Lemma recolor_items_perm data items items' rgb_image :
  items ≡ₚ items' → NoDup items.*1 →
  recolor_items data items rgb_image = recolor_items data items' rgb_image.
Proof.
  intros Hperm. revert rgb_image.
  induction Hperm as [| [c v] l l' Hp IH | [c1 v1] [c2 v2] l | l l' l'' Hp1 IH1 Hp2 IH2];
    intros img Hnd.
  - done.
  - rewrite fmap_cons, NoDup_cons in Hnd. destruct Hnd as [_ Hnd]. simpl.
    destruct (setitem_where img data c (take 4 v)); simpl; [| done]. by apply IH.
  - rewrite !fmap_cons, !NoDup_cons in Hnd. destruct Hnd as (Hfresh & _ & _).
    simpl in Hfresh.
    assert (c2 ≠ c1) as Hne. { intros ->. apply Hfresh. by left. }
    pose proof (setitem_where_comm img data c1 (take 4 v1) c2 (take 4 v2)
                  ltac:(done)) as Hc.
    simpl.
    destruct (setitem_where img data c1 (take 4 v1)) as [i1 |] eqn:E1,
             (setitem_where img data c2 (take 4 v2)) as [i2 |] eqn:E2;
      simpl in *.
    + by rewrite Hc.
    + by rewrite Hc.
    + by rewrite <- Hc.
    + apply broadcast_raise_where in E1 as ->.
      by apply broadcast_raise_where in E2 as ->.
  - rewrite IH1 by done. apply IH2. by rewrite <- Hp1.
Qed.

(** A recolored frame is a full (height, width, 4) array. *)
Lemma recolor_wf data cm frame : recolor data cm = Ok frame → wf frame.
Proof.
  unfold recolor. intros Hr. apply recolor_items_shape in Hr as [Hs Hl].
  unfold wf. rewrite Hs, Hl. simpl. apply length_replicate.
Qed.

(** C3, amended. For every class grid and every colormap whose entries
    each have at least four channel values, recoloring returns a frame of
    the grid's shape in which every pixel whose class code has no colormap
    entry is the zero vector (0,0,0,0) and every pixel whose class code has
    an entry holds the first four channel values of that entry. *)
Theorem recolor_absent_zero_present_entry (data : ndarray Z)
    (cm : gmap Z (list Byte.byte)) :
  (∀ code rgb, cm !! code = Some rgb → (4 ≤ length rgb)%nat) →
  ∃ frame, recolor data cm = Ok frame ∧ shape frame = shape data ∧
    ∀ r c code, pixel data r c = Some code →
      (cm !! code = None → pixel frame r c = Some zero_pixel) ∧
      (∀ rgb, cm !! code = Some rgb → is_Some (first_four rgb) ∧
         pixel frame r c = first_four rgb).
Proof.
  intros Hfour.
  destruct (recolor data cm) as [frame | e] eqn:Hr.
  2: { unfold recolor in Hr.
       pose proof (recolor_items_total data (map_to_list cm) (zeros (shape data)))
         as Htot.
       rewrite Hr in Htot. simpl in Htot.
       assert (false = true) by
         (apply Htot; intros c v Hin; apply (Hfour c);
          by apply elem_of_map_to_list).
       done. }
  exists frame. split; [done |]. split.
  - unfold recolor in Hr. by apply recolor_items_shape in Hr as [-> _].
  - intros r c code Hd.
    destruct (recolor_ok _ _ _ _ _ _ Hr Hd) as (_ & Habs & Hpres).
    split; [done |]. intros rgb Hsome.
    destruct (Hpres rgb Hsome) as (px & Hb & Hpx).
    destruct (broadcast4_first_four rgb (Hfour _ _ Hsome)) as (px' & Hb' & Hff).
    rewrite Hff. split; [by eexists |]. congruence.
Qed.

Lemma palette_four_channels code rgb :
  Example.palette !! code = Some rgb → (4 ≤ length rgb)%nat.
Proof.
  intros Hin. apply elem_of_map_to_list in Hin.
  assert (Forall (λ kv, 4 ≤ length kv.2)%nat (map_to_list Example.palette)) as HF.
  { vm_compute. repeat constructor. }
  by apply (proj1 (Forall_forall _ _) HF (code, rgb)).
Defined.

Lemma recolor_absent_zero_present_entry_witness :
  ∃ frame, recolor (NdArray (2, 2)%nat [11; 21; 99; 250]) Example.palette = Ok frame ∧
    shape frame = (2, 2)%nat ∧
    ∀ r c code, pixel (NdArray (2, 2)%nat [11; 21; 99; 250]) r c = Some code →
      (Example.palette !! code = None → pixel frame r c = Some zero_pixel) ∧
      (∀ rgb, Example.palette !! code = Some rgb → is_Some (first_four rgb) ∧
         pixel frame r c = first_four rgb).
Proof.
  apply (recolor_absent_zero_present_entry
           (NdArray (2, 2)%nat [11; 21; 99; 250]) Example.palette).
  exact palette_four_channels.
Defined.

(** C3, as the specification words it (for every colormap), fails: with a
    grid holding the codes 11 and 99 and a colormap whose only entry, for
    11, has three values, recoloring raises and produces no frame, neither
    the entry at the pixel of code 11 nor the zero vector at the pixel of
    code 99. *)
Lemma recolor_produces_no_frame_for_three_value_entry :
  ¬ (∀ (data : ndarray Z) (cm : gmap Z (list Byte.byte)),
       ∃ frame, recolor data cm = Ok frame ∧
         ∀ r c code, pixel data r c = Some code →
           (cm !! code = None → pixel frame r c = Some zero_pixel) ∧
           (∀ rgb, cm !! code = Some rgb → pixel frame r c = first_four rgb)).
Proof.
  intros Hclaim.
  destruct (Hclaim (NdArray (1, 2)%nat [11; 99])
              {[ 11 := [Byte.x46; Byte.x6b; Byte.x9f] ]}) as (frame & Hr & _).
  vm_compute in Hr. discriminate Hr.
Qed.

(** C7, as the specification words it, fails: a three-value entry makes the
    assignment raise instead of leaving the fourth channel at its zero
    fill. *)
Lemma recolor_short_entry_not_zero_filled :
  ¬ (∀ (data : ndarray Z) (cm : gmap Z (list Byte.byte)) cls rgb,
       cm !! cls = Some rgb → (length rgb < 4)%nat →
       ∃ frame, recolor data cm = Ok frame ∧
         ∀ r c, pixel data r c = Some cls →
           pixel frame r c = Some (zero_fill rgb)).
Proof.
  intros Hclaim.
  destruct (Hclaim (NdArray (1, 1)%nat [11])
              {[ 11 := [Byte.x46; Byte.x6b; Byte.x9f] ]} 11
              [Byte.x46; Byte.x6b; Byte.x9f]) as (frame & Hr & _).
  - apply lookup_singleton_eq.
  - simpl. lia.
  - vm_compute in Hr. discriminate Hr.
Qed.

(** C7, amended. A colormap entry with fewer than four values is not padded
    with the zero fill: with zero, two or three values the recoloring raises
    ValueError (whether or not a pixel has that code), and with exactly one
    value that value is written to all four channels of the matching
    pixels. *)
Theorem recolor_short_entry (data : ndarray Z) (cm : gmap Z (list Byte.byte))
    (cls : Z) (rgb : list Byte.byte) :
  cm !! cls = Some rgb → (length rgb < 4)%nat →
  (length rgb ≠ 1%nat → recolor data cm = Raise ValueError) ∧
  (∀ x frame, rgb = [x] → recolor data cm = Ok frame →
     ∀ r c, pixel data r c = Some cls → pixel frame r c = Some (x, x, x, x)).
Proof.
  intros Hcm Hlen. split.
  - intros Hne. unfold recolor.
    apply (recolor_items_bad_entry _ _ _ cls rgb).
    + by apply elem_of_map_to_list.
    + by rewrite broadcast4_short.
  - intros x frame -> Hr r c Hd.
    destruct (recolor_ok _ _ _ _ _ _ Hr Hd) as (_ & _ & Hpres).
    destruct (Hpres _ Hcm) as (px & Hb & Hpx).
    simpl in Hb. by injection Hb as <-.
Qed.

Lemma recolor_short_entry_witness :
  (length [Byte.x46; Byte.x6b] ≠ 1%nat →
   recolor (NdArray (1, 2)%nat [11; 21])
     {[ 11 := [Byte.x46; Byte.x6b] ]} = Raise ValueError) ∧
  (∀ x frame, [Byte.x46; Byte.x6b] = [x] →
     recolor (NdArray (1, 2)%nat [11; 21])
       {[ 11 := [Byte.x46; Byte.x6b] ]} = Ok frame →
     ∀ r c, pixel (NdArray (1, 2)%nat [11; 21]) r c = Some 11 →
       pixel frame r c = Some (x, x, x, x)).
Proof.
  apply (recolor_short_entry (NdArray (1, 2)%nat [11; 21])
           {[ 11 := [Byte.x46; Byte.x6b] ]} 11 [Byte.x46; Byte.x6b]).
  - apply lookup_singleton_eq.
  - simpl. lia.
Defined.

(** ** The pipeline *)

Section PipelineFacts.
Context {Geometry CRS : Type}.
Implicit Types (w : World Geometry CRS) (s : State Geometry CRS).
Implicit Types (src : DatasetReader Geometry CRS) (ext : Extent Geometry CRS).
Implicit Types (evs : list (Event Geometry CRS)).

(** [get_extent] returns [boundary] and only opens and closes the 1985
    tile. *)
Lemma get_extent_run w state county s :
  get_extent w state county s =
    (boundary w state county,
     {| trace := trace s ++ RioOpen 1985 ::
                   (if is_ok (rio_open w 1985) then [RioClose 1985] else []);
        fs := fs s |}).
Proof.
  unfold get_extent, with_open, boundary, closing, emit, lift, log.
  unfold mbind, M_bind, result_bind. simpl.
  destruct (rio_open w 1985) as [src | e]; simpl; [| done].
  by rewrite <- app_assoc.
Qed.

(** One iteration: either it reaches the clipper, and its calls are
    [year_events], or it fails before, without a clipper call. *)
Lemma process_year_run w state county images year s r s' :
  process_year w state county images year s = (r, s') →
  fs s' = fs s ∧
  ((∃ ext src, boundary w state county = Ok ext ∧ rio_open w year = Ok src ∧
      trace s' = trace s ++ year_events county ext year ∧
      r = (data ← clip src [ext];
           rgb_image ← recolor_src src data;
           Ok (images ++ [rgb_image]))) ∨
   (∃ e evs, r = Raise e ∧ quiet evs ∧
      trace s' =
        trace s ++ StWrite (Downloading year county) :: RioOpen year :: evs)).
Proof.
  unfold process_year, with_open, closing.
  unfold mbind at 1 2 3. unfold M_bind at 1 2 3.
  unfold emit at 1 2. unfold lift at 1. simpl.
  destruct (rio_open w year) as [src | e] eqn:Hopen; simpl.
  2: { intros [= <- <-]. split; [done |]. right. exists e, [].
       simpl. by rewrite <- app_assoc. }
  unfold mbind at 1. unfold M_bind at 1. rewrite get_extent_run.
  destruct (boundary w state county) as [ext | e] eqn:Hb.
  2: { intros [= <- <-]. split; [done |]. right. exists e.
       exists (RioOpen 1985 ::
                 (if is_ok (rio_open w 1985) then [RioClose 1985] else []) ++
                 [RioClose year]).
       split; [done |]. simpl. rewrite <- ?app_assoc. split; [| done].
       unfold boundary in Hb. by destruct (rio_open w 1985). }
  assert (is_ok (rio_open w 1985) = true) as ->.
  { unfold boundary in Hb. by destruct (rio_open w 1985). }
  unfold mbind at 1 2 3. unfold M_bind, emit, lift, log. simpl.
  intros Hrun.
  destruct (clip src [ext]) as [data |] eqn:Hclip; simpl in *.
  - destruct (recolor_src src data) eqn:Hrec; simpl in *;
      injection Hrun as <- <-; (split; [done |]); left; exists ext, src;
      rewrite Hclip; simpl; rewrite Hrec; simpl; by rewrite <- ?app_assoc.
  - injection Hrun as <- <-. split; [done |]. left. exists ext, src.
    rewrite Hclip. simpl. by rewrite <- ?app_assoc.
Qed.

Lemma quiet_no_clip evs year shapes :
  quiet evs → RasterGeometryMask year shapes ∉ evs.
Proof.
  intros [Hclip _] Hin.
  assert (year ∈ clip_years evs) as Hy.
  { unfold clip_years. apply list_elem_of_omap. by eexists. }
  rewrite Hclip in Hy. by apply elem_of_nil in Hy.
Qed.

(** The loop, whatever its outcome: the file system is untouched and the
    calls form a [loop_trace]. *)
Lemma for_years_run w state county years images s r s' :
  for_years w state county years images s = (r, s') →
  fs s' = fs s ∧
  ∃ evs, trace s' = trace s ++ evs ∧ loop_trace w state county evs.
Proof.
  revert images s. induction years as [| year rest IH]; intros images s; simpl.
  - intros [= <- <-]. split; [done |]. exists []. rewrite app_nil_r.
    split; [done | constructor].
  - unfold mbind, M_bind.
    destruct (process_year w state county images year s) as [r1 s1] eqn:Hp.
    destruct (process_year_run _ _ _ _ _ _ _ _ Hp)
      as (Hfs & [(ext & src & Hb & Hopen & Htr & Hr1) | (e & evs & -> & Hq & Htr)]).
    + destruct r1 as [images1 | e].
      * intros Hrest. destruct (IH _ _ Hrest) as (Hfs' & evs' & Htr' & Hloop).
        split; [congruence |]. exists (year_events county ext year ++ evs').
        rewrite Htr', Htr, <- app_assoc. split; [done |]. by constructor.
      * intros [= <- <-]. split; [done |].
        exists (year_events county ext year ++ []). rewrite app_nil_r.
        split; [done |]. constructor; [done | constructor].
    + intros [= <- <-]. split; [done |]. eexists. split; [done |].
      apply loop_failed. destruct Hq as [Hq1 Hq2]. by split.
Qed.

(** The loop, when it completes: one frame per year, in order, and the
    calls of every year. *)
Lemma for_years_ok w state county years images s images' s' :
  for_years w state county years images s = (Ok images', s') →
  fs s' = fs s ∧
  ∃ new, images' = images ++ new ∧
    Forall2 (frame_of w state county) years new ∧
    (years = [] → trace s' = trace s) ∧
    (∀ ext, boundary w state county = Ok ext →
       trace s' = trace s ++ flat_map (year_events county ext) years).
Proof.
  revert images s. induction years as [| year rest IH]; intros images s; simpl.
  - intros [= <- <-]. split; [done |]. exists []. simpl. rewrite !app_nil_r.
    split; [done |]. split; [constructor |]. done.
  - unfold mbind, M_bind.
    destruct (process_year w state county images year s) as [r1 s1] eqn:Hp.
    destruct (process_year_run _ _ _ _ _ _ _ _ Hp)
      as (Hfs & [(ext & src & Hb & Hopen & Htr & Hr1) | (e & evs & -> & Hq & Htr)]);
      [| done].
    destruct r1 as [images1 | e]; [| done].
    intros Hrest. destruct (IH _ _ Hrest) as (Hfs' & new & -> & Hall & _ & Htr').
    split; [congruence |].
    destruct (clip src [ext]) as [data |] eqn:Hclip; [| done]. simpl in Hr1.
    destruct (recolor_src src data) as [frame |] eqn:Hrec; [| done].
    simpl in Hr1. injection Hr1 as ->.
    exists (frame :: new). rewrite <- app_assoc. split; [done |]. split.
    { constructor; [| done]. by exists src, ext, data. }
    split; [done |].
    intros ext' Hb'. rewrite Hb in Hb'. injection Hb' as <-.
    by rewrite (Htr' ext Hb), Htr, <- app_assoc.
Qed.

(** The ways a run of [main] can go: [range] raises; the loop raises; the
    encoder raises; or everything succeeds. *)
Lemma main_run w start stop step state county files r s' :
  run (main w start stop step state county) files = (r, s') →
  (∃ e, py_range start stop step = Raise e ∧ r = Raise e ∧
     s' = {| trace := []; fs := files |}) ∨
  (∃ years, py_range start stop step = Ok years ∧
     ((∃ e, for_years w state county years [] {| trace := []; fs := files |}
              = (Raise e, s') ∧ r = Raise e) ∨
      (∃ images s1,
         for_years w state county years [] {| trace := []; fs := files |}
           = (Ok images, s1) ∧
         let out := {| frames := images; fps := 4; loop := 0 |} in
         ((∃ e partial,
             imageio_encode w "nlcd.gif" out = Failed e partial ∧ r = Raise e ∧
             trace s' = trace s1 ++ [StWrite PreparingGIF; MimSave "nlcd.gif" out] ∧
             fs s' = match partial with
                     | Some b => <["nlcd.gif" := b]> files
                     | None => files
                     end) ∨
          (∃ encoded,
             imageio_encode w "nlcd.gif" out = Saved encoded ∧ r = Ok tt ∧
             trace s' = trace s1 ++
               [StWrite PreparingGIF; MimSave "nlcd.gif" out; StatusComplete;
                FileOpen "nlcd.gif"; StMarkdown encoded] ∧
             fs s' = <["nlcd.gif" := encoded]> files))))).
Proof.
  unfold run, main. unfold mbind at 1. unfold M_bind at 1. unfold lift at 1.
  destruct (py_range start stop step) as [years | e].
  2: { intros [= <- <-]. left. by exists e. }
  intros Hrun. right. exists years. split; [done |].
  unfold mbind at 1 in Hrun. unfold M_bind at 1 in Hrun.
  destruct (for_years w state county years [] {| trace := []; fs := files |})
    as [[images | e] s1] eqn:Hloop.
  2: { injection Hrun as <- <-. left. by exists e. }
  right. exists images, s1. split; [done |].
  destruct (for_years_ok _ _ _ _ _ _ _ _ Hloop) as (Hfs & _). simpl in Hfs.
  revert Hrun. unfold mbind, M_bind, emit, mimsave, open_read, log. simpl.
  destruct (imageio_encode w "nlcd.gif" {| frames := images; fps := 4; loop := 0 |})
    as [encoded | e partial]; simpl.
  - rewrite lookup_insert_eq. intros [= <- <-]. right. exists encoded. simpl.
    rewrite <- ?app_assoc. rewrite Hfs. done.
  - intros [= <- <-]. left. exists e, partial. simpl.
    rewrite <- ?app_assoc. rewrite Hfs. done.
Qed.

Lemma calls_of_year_events county ext years :
  let evs := flat_map (year_events county ext) years in
  clip_years evs = years ∧ download_years evs = years ∧
  open_years evs = flat_map (λ y, [y; 1985]) years ∧
  mask_shapes evs = map (λ _, [ext]) years ∧
  mimsave_calls evs = [] ∧ displayed evs = [].
Proof.
  induction years as [| y rest (H1 & H2 & H3 & H4 & H5 & H6)]; simpl.
  - done.
  - unfold clip_years, download_years, open_years, mask_shapes, mimsave_calls,
      displayed in *. simpl. by rewrite H1, H2, H3, H4, H5, H6.
Qed.

Lemma loop_trace_no_mimsave w state county evs :
  loop_trace w state county evs → mimsave_calls evs = [].
Proof.
  induction 1 as [| ext year evs Hb Hloop IH | evs [_ Hq]]; [done | | done].
  unfold mimsave_calls in *. by rewrite omap_app, IH.
Qed.

(** Every clipper call of the loop is handed the one boundary, and comes
    right after the 1985 tile was opened and closed. *)
Lemma loop_trace_clip w state county evs year shapes :
  loop_trace w state county evs →
  RasterGeometryMask year shapes ∈ evs →
  ∃ ext pre post, boundary w state county = Ok ext ∧ shapes = [ext] ∧
    evs = pre ++
      [RioOpen 1985; RioClose 1985; RasterGeometryMask year shapes] ++ post.
Proof.
  induction 1 as [| ext y evs Hb Hloop IH | evs Hq]; intros Hin.
  - by apply elem_of_nil in Hin.
  - apply elem_of_app in Hin as [Hin | Hin].
    + unfold year_events in Hin.
      repeat (apply elem_of_cons in Hin as [Heq | Hin]; [try discriminate Heq |]).
      * injection Heq as -> ->.
        exists ext, [StWrite (Downloading y county); RioOpen y],
          (RioClose y :: evs).
        by repeat split.
      * by apply elem_of_nil in Hin.
    + destruct (IH Hin) as (ext' & pre & post & Hb' & -> & ->).
      exists ext', (year_events county ext y ++ pre), post.
      rewrite <- app_assoc. by repeat split.
  - by apply quiet_no_clip in Hin.
Qed.



(** C1, amended. [get_extent] checks nothing about the number of matching
    records and raises neither NotFoundError nor AmbiguousMatchError: when
    the 1985 tile opens and both CRSs are known, exactly one match gives
    that record's geometry reprojected into the tile's CRS, no match gives
    the empty series, and two or more matches give the series of all the
    reprojected geometries. *)
Theorem get_extent_squeezes_matches w state county src from target files :
  rio_open w 1985 = Ok src →
  profile_crs src = Some target →
  crs (USA w) = Some from →
  let matched := rows (query (USA w) state county) in
  let reproject := λ r, pyproj_transform w from target (geometry r) in
  let returned := fst (run (get_extent w state county) files) in
  (∀ r, matched = [r] → returned = Ok (Scalar (reproject r))) ∧
  (matched = [] → returned = Ok (GeoSeries (Some target) [])) ∧
  ((2 ≤ length matched)%nat →
     returned = Ok (GeoSeries (Some target) (map reproject matched))).
Proof.
  intros Hopen Hcrs Hfrom matched reproject returned.
  assert (returned =
          Ok (squeeze {| crs := Some target;
                         rows := map (λ r, {| NAME_1 := NAME_1 r;
                                              NAME_2 := NAME_2 r;
                                              geometry := reproject r |})
                                     matched |})) as ->.
  { subst returned. unfold run. rewrite get_extent_run. simpl.
    unfold boundary. rewrite Hopen. simpl. unfold extent_in, to_crs.
    simpl. by rewrite Hfrom, Hcrs. }
  unfold squeeze. simpl. split; [| split].
  - by intros r ->.
  - by intros ->.
  - intros Hlen. destruct matched as [| r1 [| r2 rest]]; simpl in *; try lia.
    by rewrite map_map.
Qed.

(** The clipper returns as soon as the mask and the read succeed with one
    shape and the source declares a sentinel. *)
Lemma clip_completes src (shapes : list (Extent Geometry CRS)) mask win data nd :
  raster_geometry_mask src shapes = Ok (mask, win) →
  read src win = Ok data → nodata src = Some nd →
  shape mask = shape data →
  is_ok (clip src shapes) = true.
Proof.
  intros Hmask Hread Hnd Hs. unfold clip. rewrite Hmask. simpl.
  rewrite Hread. simpl. rewrite Hnd. by apply setitem_mask_total.
Qed.

(** C2. Whenever the clipper returns a raster, the mask, the window and the
    sentinel exist, the result has the shape of the windowed read, every
    pixel the mask flags as outside the boundary holds the sentinel, every
    other pixel holds the class code that was read, and clipping again with
    the same boundary (masking the result, or clipping a source that reads
    back the result) gives the same raster. *)
Theorem clip_masks_outside src (shapes : list (Extent Geometry CRS)) out :
  clip src shapes = Ok out →
  ∃ mask win data nd,
    raster_geometry_mask src shapes = Ok (mask, win) ∧
    read src win = Ok data ∧ nodata src = Some nd ∧
    shape out = shape data ∧
    (∀ r c d, pixel data r c = Some d →
       (pixel mask r c = Some true → pixel out r c = Some nd) ∧
       (pixel mask r c = Some false → pixel out r c = Some d)) ∧
    setitem_mask out mask (nodata src) = Ok out ∧
    (∀ src', raster_geometry_mask src' shapes = Ok (mask, win) →
       nodata src' = nodata src → read src' win = Ok out →
       clip src' shapes = Ok out).
Proof.
  unfold clip. intros Hclip.
  destruct (raster_geometry_mask src shapes) as [[mask win] |] eqn:Hmask;
    [| done].
  simpl in Hclip. destruct (read src win) as [data |] eqn:Hread; [| done].
  simpl in Hclip.
  destruct (setitem_mask_ok _ _ _ _ Hclip) as (nd & Hnd & Hs & Hso & _).
  pose proof (setitem_mask_idempotent _ _ _ _ Hclip) as Hidem.
  exists mask, win, data, nd. repeat split; try done.
  - intros Hm.
    destruct (setitem_mask_pixel _ _ _ _ r c d Hclip H) as (v & Hv & Ht & _).
    rewrite Hnd in Hv. injection Hv as <-. by apply Ht.
  - intros Hm.
    destruct (setitem_mask_pixel _ _ _ _ r c d Hclip H) as (v & _ & _ & Hf).
    by apply Hf.
  - intros src' Hmask' Hnd' Hread'. rewrite Hmask'. simpl. rewrite Hread'.
    simpl. by rewrite Hnd'.
Qed.

(** C9. In every run, whatever its outcome, each clipper call is handed the
    one boundary computed from the 1985 tile: the matching records
    reprojected into the CRS of that tile, which was opened and closed just
    before the call; the boundary does not depend on the year clipped. *)
Theorem boundary_in_crs_of_1985 w start stop step state county files r s'
    year shapes :
  run (main w start stop step state county) files = (r, s') →
  RasterGeometryMask year shapes ∈ trace s' →
  ∃ src85 target df,
    rio_open w 1985 = Ok src85 ∧ profile_crs src85 = Some target ∧
    to_crs w (query (USA w) state county) (Some target) = Ok df ∧
    crs df = Some target ∧
    shapes = [squeeze df] ∧
    ∃ pre post, trace s' = pre ++
      [RioOpen 1985; RioClose 1985; RasterGeometryMask year shapes] ++ post.
Proof.
  intros Hrun Hin.
  assert (∃ evs tail, trace s' = evs ++ tail ∧ loop_trace w state county evs ∧
            RasterGeometryMask year shapes ∉ tail) as (evs & tail & Htr & Hloop & Htail).
  { destruct (main_run _ _ _ _ _ _ _ _ _ Hrun)
      as [(e & _ & _ & ->) | (years & _ & [(e & Hloop & _) | (images & s1 & Hloop & Henc)])].
    - by apply elem_of_nil in Hin.
    - destruct (for_years_run _ _ _ _ _ _ _ _ Hloop) as (_ & evs & Htr & Hl).
      exists evs, []. rewrite app_nil_r. repeat split; try done.
      apply not_elem_of_nil.
    - destruct (for_years_run _ _ _ _ _ _ _ _ Hloop) as (_ & evs & Htr & Hl).
      simpl in Htr.
      destruct Henc as [(e & partial & _ & _ & Htr' & _) | (b & _ & _ & Htr' & _)];
        rewrite Htr in Htr'; (eexists evs, _; split; [exact Htr' |]);
        (split; [done |]); intros Hbad;
        repeat (apply elem_of_cons in Hbad as [Hbad | Hbad]; [discriminate Hbad |]);
        by apply elem_of_nil in Hbad. }
  rewrite Htr in Hin. apply elem_of_app in Hin as [Hin | Hin]; [| done].
  destruct (loop_trace_clip _ _ _ _ _ _ Hloop Hin)
    as (ext & pre & post & Hb & -> & ->).
  unfold boundary in Hb. destruct (rio_open w 1985) as [src85 |] eqn:Hopen;
    [| done].
  simpl in Hb. unfold extent_in in Hb.
  destruct (to_crs w (query (USA w) state county) (profile_crs src85))
    as [df |] eqn:Hto; [| done].
  simpl in Hb. injection Hb as <-.
  assert (∃ target, profile_crs src85 = Some target ∧ crs df = Some target)
    as (target & Htarget & Hdf).
  { unfold to_crs in Hto. destruct (crs (query (USA w) state county)); [| done].
    destruct (profile_crs src85) as [target |]; [| done].
    injection Hto as <-. by exists target. }
  exists src85, target, df. rewrite Htarget in Hto.
  repeat split; try done.
  exists pre, (post ++ tail). rewrite Htr. by rewrite <- !app_assoc.
Qed.

(** The calls of a loop that completes. *)
Lemma for_years_ok_calls w state county years images s images' s' :
  for_years w state county years images s = (Ok images', s') →
  ∃ evs, trace s' = trace s ++ evs ∧
    clip_years evs = years ∧ download_years evs = years ∧
    open_years evs = flat_map (λ y, [y; 1985]) years ∧
    mimsave_calls evs = [] ∧ displayed evs = [] ∧
    length images' = (length images + length years)%nat.
Proof.
  intros Hloop.
  destruct (for_years_ok _ _ _ _ _ _ _ _ Hloop)
    as (_ & new & -> & Hall & Hnil & Htr).
  rewrite length_app, <- (Forall2_length _ _ _ Hall).
  destruct Hall as [| y f years' new' Hf Hall].
  - exists []. rewrite app_nil_r. by rewrite Hnil.
  - destruct Hf as (src & ext & data & _ & Hb & _).
    exists (flat_map (year_events county ext) (y :: years')).
    split; [by apply Htr |].
    destruct (calls_of_year_events county ext (y :: years'))
      as (H1 & H2 & H3 & _ & H5 & H6).
    by repeat split.
Qed.

(** A run that completes: the years of the range were clipped in order, the
    frames were encoded once, at 4 frames per second and looping forever,
    into [nlcd.gif], and those bytes were shown. *)
Lemma main_ok w start stop step state county files s' :
  run (main w start stop step state county) files = (Ok tt, s') →
  ∃ years images encoded,
    py_range start stop step = Ok years ∧
    Forall2 (frame_of w state county) years images ∧
    imageio_encode w "nlcd.gif" {| frames := images; fps := 4; loop := 0 |}
      = Saved encoded ∧
    fs s' = <["nlcd.gif" := encoded]> files ∧
    clip_years (trace s') = years ∧
    download_years (trace s') = years ∧
    open_years (trace s') = flat_map (λ y, [y; 1985]) years ∧
    mimsave_calls (trace s') =
      [("nlcd.gif", {| frames := images; fps := 4; loop := 0 |})] ∧
    displayed (trace s') = [encoded] ∧
    ∃ pre, trace s' = pre ++ [FileOpen "nlcd.gif"; StMarkdown encoded].
Proof.
  intros Hrun.
  destruct (main_run _ _ _ _ _ _ _ _ _ Hrun)
    as [(e & _ & ? & _) | (years & Hr & [(e & _ & ?) | (images & s1 & Hloop & Henc)])];
    [done | done |].
  destruct Henc as [(e & partial & _ & ? & _) | (encoded & Henc & _ & Htr & Hfs)];
    [done |].
  destruct (for_years_ok _ _ _ _ _ _ _ _ Hloop) as (_ & new & Hnew & Hall & _).
  simpl in Hnew. subst new.
  destruct (for_years_ok_calls _ _ _ _ _ _ _ _ Hloop)
    as (evs & Hevs & H1 & H2 & H3 & H4 & H5 & _).
  simpl in Hevs. rewrite Hevs in Htr.
  exists years, images, encoded. rewrite Htr.
  unfold clip_years, download_years, open_years, mimsave_calls, displayed in *.
  rewrite !omap_app, H1, H2, H3, H4, H5. simpl. rewrite !app_nil_r.
  repeat split; try done.
  exists (evs ++ [StWrite PreparingGIF;
                  MimSave "nlcd.gif" {| frames := images; fps := 4; loop := 0 |};
                  StatusComplete]).
  by rewrite <- app_assoc.
Qed.

(** A run over an empty range: no iteration, and the empty list of frames
    goes to the encoder, whose answer is the outcome of the run. *)
Lemma main_empty_range w start stop step state county files :
  py_range start stop step = Ok [] →
  let out := {| frames := []; fps := 4; loop := 0 |} in
  run (main w start stop step state county) files =
    match imageio_encode w "nlcd.gif" out with
    | Saved encoded =>
        (Ok tt,
         {| trace := [StWrite PreparingGIF; MimSave "nlcd.gif" out;
                      StatusComplete; FileOpen "nlcd.gif"; StMarkdown encoded];
            fs := <["nlcd.gif" := encoded]> files |})
    | Failed e partial =>
        (Raise e,
         {| trace := [StWrite PreparingGIF; MimSave "nlcd.gif" out];
            fs := match partial with
                  | Some b => <["nlcd.gif" := b]> files
                  | None => files
                  end |})
    end.
Proof.
  intros Hr out. unfold run, main. rewrite Hr.
  unfold mbind, M_bind, lift, emit, mimsave, open_read, log. simpl.
  fold out. destruct (imageio_encode w "nlcd.gif" out); simpl; [| done].
  by rewrite lookup_insert_eq.
Qed.

(** Only [nlcd.gif] can change in the file system, whatever the outcome. *)
Lemma main_other_files w start stop step state county files r s' path :
  run (main w start stop step state county) files = (r, s') →
  path ≠ "nlcd.gif" → fs s' !! path = files !! path.
Proof.
  intros Hrun Hne.
  destruct (main_run _ _ _ _ _ _ _ _ _ Hrun)
    as [(e & _ & _ & ->) | (years & _ & [(e & Hloop & _) | (images & s1 & Hloop & Henc)])].
  - done.
  - by destruct (for_years_run _ _ _ _ _ _ _ _ Hloop) as (-> & _).
  - destruct Henc as [(e & partial & _ & _ & _ & ->) | (b & _ & _ & _ & ->)].
    + destruct partial; [| done]. by rewrite lookup_insert_ne.
    + by rewrite lookup_insert_ne.
Qed.

(** The encoder is called only after the loop has completed, and with the
    frames of the years of the range. *)
Lemma main_mimsave w start stop step state county files r s' path out :
  run (main w start stop step state county) files = (r, s') →
  MimSave path out ∈ trace s' →
  path = "nlcd.gif" ∧ fps out = 4 ∧ loop out = 0 ∧
  (∃ years, py_range start stop step = Ok years ∧
     Forall2 (frame_of w state county) years (frames out)) ∧
  match imageio_encode w path out with
  | Saved _ => r = Ok tt
  | Failed e _ => r = Raise e
  end.
Proof.
  intros Hrun Hin.
  destruct (main_run _ _ _ _ _ _ _ _ _ Hrun)
    as [(e & _ & _ & ->) | (years & Hr & [(e & Hloop & _) | (images & s1 & Hloop & Henc)])].
  - by apply elem_of_nil in Hin.
  - destruct (for_years_run _ _ _ _ _ _ _ _ Hloop) as (_ & evs & Htr & Hl).
    simpl in Htr. rewrite Htr in Hin.
    apply loop_trace_no_mimsave in Hl.
    assert ((path, out) ∈ mimsave_calls evs) as Hbad.
    { unfold mimsave_calls. apply list_elem_of_omap. by eexists. }
    rewrite Hl in Hbad. by apply elem_of_nil in Hbad.
  - destruct (for_years_ok _ _ _ _ _ _ _ _ Hloop) as (_ & new & Hnew & Hall & _).
    simpl in Hnew. subst new.
    destruct (for_years_ok_calls _ _ _ _ _ _ _ _ Hloop)
      as (evs & Hevs & _ & _ & _ & Hmim & _).
    simpl in Hevs.
    assert (MimSave path out ∉ evs) as Hnot.
    { intros Hbad. assert ((path, out) ∈ mimsave_calls evs) as Hbad'.
      { unfold mimsave_calls. apply list_elem_of_omap. by eexists. }
      rewrite Hmim in Hbad'. by apply elem_of_nil in Hbad'. }
    assert (@MimSave Geometry CRS path out =
            MimSave "nlcd.gif" {| frames := images; fps := 4; loop := 0 |})
      as Heq.
    { destruct Henc as [(e & partial & _ & _ & Htr & _) | (b & _ & _ & Htr & _)];
        rewrite Htr, Hevs in Hin;
        apply elem_of_app in Hin as [Hin | Hin]; try done;
        repeat (apply elem_of_cons in Hin as [Hin | Hin];
                [first [discriminate Hin | exact Hin] |]);
        by apply elem_of_nil in Hin. }
    injection Heq as -> ->. simpl. repeat split; try done.
    + by exists years.
    + by destruct Henc as [(e & partial & -> & -> & _) | (b & -> & -> & _)].
Qed.

(** When every year of the range yields a frame and the encoder accepts
    the frames, the run completes. *)
Lemma for_years_completes w state county years new :
  Forall2 (frame_of w state county) years new →
  ∀ images s, ∃ s',
    for_years w state county years images s = (Ok (images ++ new), s').
Proof.
  induction 1 as [| year frame years new Hf Hall IH]; intros images s; simpl.
  - exists s. by rewrite app_nil_r.
  - destruct Hf as (src & ext & data & Hopen & Hb & Hclip & Hrec).
    assert (∃ s1, process_year w state county images year s
                  = (Ok (images ++ [frame]), s1)) as [s1 Hp].
    { unfold process_year, with_open, closing.
      unfold mbind at 1 2 3. unfold M_bind at 1 2 3.
      unfold emit at 1 2. unfold lift at 1. simpl. rewrite Hopen.
      unfold mbind at 1. unfold M_bind at 1. rewrite get_extent_run, Hb.
      unfold mbind, M_bind, emit, lift. simpl. rewrite Hclip. simpl.
      rewrite Hrec. simpl. by eexists. }
    unfold mbind, M_bind. rewrite Hp.
    destruct (IH (images ++ [frame]) s1) as [s' Hs']. exists s'.
    by rewrite Hs', <- app_assoc.
Qed.

Lemma main_completes w start stop step state county files years images encoded :
  py_range start stop step = Ok years →
  Forall2 (frame_of w state county) years images →
  imageio_encode w "nlcd.gif" {| frames := images; fps := 4; loop := 0 |}
    = Saved encoded →
  fst (run (main w start stop step state county) files) = Ok tt.
Proof.
  intros Hr Hall Henc. unfold run, main. rewrite Hr.
  unfold mbind at 1. unfold M_bind at 1. unfold lift at 1.
  unfold mbind at 1. unfold M_bind at 1.
  destruct (for_years_completes _ _ _ _ _ Hall [] {| trace := []; fs := files |})
    as [s1 ->].
  unfold mbind, M_bind, emit, mimsave, open_read, log. simpl. rewrite Henc.
  simpl. by rewrite lookup_insert_eq.
Qed.

(** C4. [main] iterates the half-open range [start, stop) in steps of
    [step], ascending: in a run that completes, the years announced and the
    years clipped are, in order, the values [start + k * step] below [stop].
    For start 1985, stop 1994 and step 8 these are 1985 and 1993: the
    clipper is called twice, in that order, and the encoder is handed
    exactly 2 frames, at 4 frames per second and loop count 0. *)
Theorem main_iterates_half_open_range w state county files :
  (∀ start stop step s', 1 ≤ step →
     run (main w start stop step state county) files = (Ok tt, s') →
     ∃ years, py_range start stop step = Ok years ∧
       (∀ y, y ∈ years ↔ ∃ k, 0 ≤ k ∧ y = start + k * step ∧ y < stop) ∧
       (∀ i j a b, years !! i = Some a → years !! j = Some b →
          (i < j)%nat → a < b) ∧
       download_years (trace s') = years ∧ clip_years (trace s') = years) ∧
  (∀ s', run (main w 1985 1994 8 state county) files = (Ok tt, s') →
     download_years (trace s') = [1985; 1993] ∧
     clip_years (trace s') = [1985; 1993] ∧
     ∃ out, mimsave_calls (trace s') = [("nlcd.gif", out)] ∧
       length (frames out) = 2%nat ∧ fps out = 4 ∧ loop out = 0).
Proof.
  split.
  - intros start stop step s' Hstep Hrun.
    destruct (main_ok _ _ _ _ _ _ _ _ Hrun)
      as (years & images & encoded & Hr & _ & _ & _ & Hclip & Hdown & _).
    destruct (py_range_ascending start stop step Hstep)
      as (years' & Hr' & Hmem & Hasc & _).
    rewrite Hr in Hr'. injection Hr' as <-.
    exists years. split; [done |]. split; [exact Hmem |].
    split; [exact Hasc |]. done.
  - intros s' Hrun.
    destruct (main_ok _ _ _ _ _ _ _ _ Hrun)
      as (years & images & encoded & Hr & Hall & _ & _ & Hclip & Hdown & _ & Hmim & _).
    vm_compute in Hr. injection Hr as <-.
    repeat split; try done.
    eexists. split; [exact Hmim |]. simpl.
    by rewrite <- (Forall2_length _ _ _ Hall).
Qed.





(** C10. The animation is written to the fixed path [nlcd.gif] and nowhere
    else: whatever the outcome of a run, every other path of the file
    system is as before and the encoder is only ever given that path; in a
    run that completes, the file holds the encoded bytes whatever it held
    before, and the bytes shown to the user are those read back from that
    path. *)
Theorem animation_written_to_nlcd_gif w start stop step state county files
    r s' :
  run (main w start stop step state county) files = (r, s') →
  (∀ path, path ≠ "nlcd.gif" → fs s' !! path = files !! path) ∧
  (∀ path out, MimSave path out ∈ trace s' → path = "nlcd.gif") ∧
  (r = Ok tt →
     ∃ out encoded,
       imageio_encode w "nlcd.gif" out = Saved encoded ∧
       mimsave_calls (trace s') = [("nlcd.gif", out)] ∧
       fs s' = <["nlcd.gif" := encoded]> files ∧
       fs s' !! "nlcd.gif" = Some encoded ∧
       displayed (trace s') = [encoded] ∧
       ∃ pre, trace s' = pre ++ [FileOpen "nlcd.gif"; StMarkdown encoded]).
Proof.
  intros Hrun. split; [| split].
  - intros path Hne. by apply (main_other_files _ _ _ _ _ _ _ _ _ _ Hrun).
  - intros path out Hin.
    by destruct (main_mimsave _ _ _ _ _ _ _ _ _ _ _ Hrun Hin) as (-> & _).
  - intros ->.
    destruct (main_ok _ _ _ _ _ _ _ _ Hrun)
      as (years & images & encoded & _ & _ & Henc & Hfs & _ & _ & _ & Hmim & Hdisp & Hpre).
    exists {| frames := images; fps := 4; loop := 0 |}, encoded.
    repeat split; try done. rewrite Hfs. apply lookup_insert_eq.
Qed.

End PipelineFacts.

(** ** The claims on the example world *)

(** C1, as the specification words it, fails: with no matching record, and
    with two matching records, [get_extent] returns a series instead of
    raising. *)
Lemma get_extent_returns_without_unique_match :
  rows (query Example.usa "Ohio" "Nowhere") = [] ∧
  fst (run (get_extent Example.world "Ohio" "Nowhere") ∅)
    = Ok (GeoSeries (Some 5070) []) ∧
  length (rows (query Example.usa "Ohio" "Union")) = 2%nat ∧
  fst (run (get_extent Example.world "Ohio" "Union") ∅)
    = Ok (GeoSeries (Some 5070)
            [Example.shift 4326 5070 Example.union_a;
             Example.shift 4326 5070 Example.union_b]).
Proof. repeat split; vm_compute; reflexivity. Qed.

Lemma get_extent_squeezes_matches_witness :
  let matched := rows (query Example.usa "Texas" "Travis") in
  let reproject := λ r : Row Example.Geom,
    Example.shift 4326 5070 (geometry r) in
  let returned := fst (run (get_extent Example.world "Texas" "Travis") ∅) in
  (∀ r, matched = [r] → returned = Ok (Scalar (reproject r))) ∧
  (matched = [] → returned = Ok (GeoSeries (Some 5070) [])) ∧
  ((2 ≤ length matched)%nat →
     returned = Ok (GeoSeries (Some 5070) (map reproject matched))).
Proof.
  apply (get_extent_squeezes_matches Example.world "Texas" "Travis"
           (Example.tile [11; 11; 21; 21]) 4326 5070 ∅);
    reflexivity.
Defined.

Lemma clip_masks_outside_witness :
  ∃ mask win data nd,
    raster_geometry_mask (Example.tile [11; 11; 21; 21]) [Runs.travis_5070]
      = Ok (mask, win) ∧
    read (Example.tile [11; 11; 21; 21]) win = Ok data ∧
    nodata (Example.tile [11; 11; 21; 21]) = Some nd ∧
    shape (NdArray (2, 2)%nat [250; 11; 21; 250]) = shape data ∧
    (∀ r c d, pixel data r c = Some d →
       (pixel mask r c = Some true →
        pixel (NdArray (2, 2)%nat [250; 11; 21; 250]) r c = Some nd) ∧
       (pixel mask r c = Some false →
        pixel (NdArray (2, 2)%nat [250; 11; 21; 250]) r c = Some d)) ∧
    setitem_mask (NdArray (2, 2)%nat [250; 11; 21; 250]) mask
      (nodata (Example.tile [11; 11; 21; 21]))
      = Ok (NdArray (2, 2)%nat [250; 11; 21; 250]) ∧
    (∀ src', raster_geometry_mask src' [Runs.travis_5070] = Ok (mask, win) →
       nodata src' = nodata (Example.tile [11; 11; 21; 21]) →
       read src' win = Ok (NdArray (2, 2)%nat [250; 11; 21; 250]) →
       clip src' [Runs.travis_5070] = Ok (NdArray (2, 2)%nat [250; 11; 21; 250])).
Proof.
  apply (clip_masks_outside (Example.tile [11; 11; 21; 21])
           [Runs.travis_5070] (NdArray (2, 2)%nat [250; 11; 21; 250])).
  vm_compute. reflexivity.
Defined.

Lemma main_iterates_half_open_range_witness :
  download_years (trace (snd Runs.scenario)) = [1985; 1993] ∧
  clip_years (trace (snd Runs.scenario)) = [1985; 1993] ∧
  ∃ out, mimsave_calls (trace (snd Runs.scenario)) = [("nlcd.gif", out)] ∧
    length (frames out) = 2%nat ∧ fps out = 4 ∧ loop out = 0.
Proof.
  apply (proj2 (main_iterates_half_open_range Example.world "Texas" "Travis" ∅)).
  vm_compute. reflexivity.
Defined.


Lemma scenario_run :
  run (main Example.world 1985 1994 8 "Texas" "Travis") ∅
    = (Ok tt, snd Runs.scenario).
Proof. vm_compute. reflexivity. Defined.






Lemma boundary_in_crs_of_1985_witness :
  ∃ src85 target df,
    rio_open Example.world 1985 = Ok src85 ∧ profile_crs src85 = Some target ∧
    to_crs Example.world (query (USA Example.world) "Texas" "Travis")
      (Some target) = Ok df ∧
    crs df = Some target ∧
    [Runs.travis_5070] = [squeeze df] ∧
    ∃ pre post, trace (snd Runs.scenario) = pre ++
      [RioOpen 1985; RioClose 1985;
       RasterGeometryMask 1993 [Runs.travis_5070]] ++ post.
Proof.
  apply (boundary_in_crs_of_1985 Example.world 1985 1994 8 "Texas" "Travis" ∅
           (Ok tt) (snd Runs.scenario) 1993 [Runs.travis_5070] scenario_run).
  apply (list_elem_of_lookup_2 _ 10%nat). vm_compute. reflexivity.
Defined.

Lemma animation_written_to_nlcd_gif_witness :
  ∃ out encoded,
    imageio_encode Example.world "nlcd.gif" out = Saved encoded ∧
    mimsave_calls (trace (snd Runs.scenario)) = [("nlcd.gif", out)] ∧
    fs (snd Runs.scenario) = <["nlcd.gif" := encoded]> ∅ ∧
    fs (snd Runs.scenario) !! "nlcd.gif" = Some encoded ∧
    displayed (trace (snd Runs.scenario)) = [encoded] ∧
    ∃ pre, trace (snd Runs.scenario)
             = pre ++ [FileOpen "nlcd.gif"; StMarkdown encoded].
Proof.
  apply (proj2 (proj2 (animation_written_to_nlcd_gif Example.world 1985 1994 8
                         "Texas" "Travis" ∅ (Ok tt) (snd Runs.scenario)
                         scenario_run))).
  reflexivity.
Defined.

(** * Further properties of the code *)

(** ** Recoloring as a palette lookup *)

Lemma entry_pixel_ok rgb px : broadcast4 (take 4 rgb) = Ok px → entry_pixel rgb = px.
Proof. unfold entry_pixel. by intros ->. Qed.

Lemma recolor_items_accepts data items rgb_image :
  is_ok (recolor_items data items rgb_image) = true ↔
  ∀ cls rgb, (cls, rgb) ∈ items → is_ok (broadcast4 (take 4 rgb)) = true.
Proof.
  split.
  - intros Hok cls rgb Hin.
    destruct (is_ok (broadcast4 (take 4 rgb))) eqn:Hb; [done |].
    by rewrite (recolor_items_bad_entry _ _ _ _ _ Hin Hb) in Hok.
  - revert rgb_image. induction items as [| [cls rgb] rest IH]; intros img Hall.
    + done.
    + simpl. unfold setitem_where.
      pose proof (Hall cls rgb ltac:(by left)) as Hb.
      destruct (broadcast4 (take 4 rgb)); [| done]. simpl.
      apply IH. intros c v Hin. apply (Hall c v). by right.
Qed.

Lemma broadcast4_accepts rgb :
  is_ok (broadcast4 (take 4 rgb)) = true ↔
  length rgb = 1%nat ∨ (4 ≤ length rgb)%nat.
Proof.
  destruct rgb as [| a [| b [| c [| d rest]]]]; simpl.
  - split; [done | lia].
  - split; [by left | done].
  - split; [done | lia].
  - split; [done | lia].
  - destruct rest; simpl; (split; [intros _; right; lia | done]).
Qed.

(** X1. Recoloring is a palette lookup: when it returns, the frame has the
    shape of the grid and each of its pixels is the colour of the class code
    at that place, where the colour of a code is the pixel of its colormap
    entry and zero if it has none. *)
Theorem recolor_is_palette_lookup (data : ndarray Z)
    (cm : gmap Z (list Byte.byte)) (frame : Frame) :
  recolor data cm = Ok frame → wf data →
  frame = NdArray (shape data) (map (colour cm) (flat data)).
Proof.
  intros Hr Hwf. pose proof Hr as Hitems. unfold recolor in Hitems.
  destruct (recolor_items_shape _ _ _ _ Hitems) as [Hs Hl]. simpl in Hs, Hl.
  rewrite length_replicate in Hl.
  assert (flat frame = map (colour cm) (flat data)) as Hflat.
  { apply list_eq. intros i. rewrite list_lookup_fmap.
    destruct (flat data !! i) as [code |] eqn:Hd; simpl.
    - assert (i < fst (shape data) * snd (shape data))%nat as Hi.
      { rewrite <- Hwf. by apply lookup_lt_Some in Hd. }
      destruct (recolor_items_lookup _ _ _ _ _ _ Hitems (zeros_lookup _ _ Hi)
                  (NoDup_fst_map_to_list cm)) as (_ & Habs & Hpres).
      unfold colour. destruct (cm !! code) as [rgb |] eqn:Hcm.
      + destruct (Hpres code rgb Hd) as (px & Hb & Hpx).
        { by apply elem_of_map_to_list. }
        by rewrite Hpx, (entry_pixel_ok _ _ Hb).
      + apply Habs. intros cls Hcls Hin. rewrite Hd in Hcls.
        injection Hcls as <-.
        apply list_elem_of_fmap in Hin as ([k v] & -> & Hin).
        apply elem_of_map_to_list in Hin. simpl in Hcm. congruence.
    - apply lookup_ge_None. apply lookup_ge_None in Hd. unfold wf in Hwf. lia. }
  destruct frame as [sh cells]. simpl in *. by subst.
Qed.

Lemma recolor_is_palette_lookup_witness :
  recolor (NdArray (2, 2)%nat [11; 21; 99; 250]) Example.palette
    = Ok (NdArray (2, 2)%nat
            (map (colour Example.palette) [11; 21; 99; 250])) ∧
  NdArray (2, 2)%nat (map (colour Example.palette) [11; 21; 99; 250])
    = NdArray (shape (NdArray (2, 2)%nat [11; 21; 99; 250]))
        (map (colour Example.palette)
             (flat (NdArray (2, 2)%nat [11; 21; 99; 250]))).
Proof.
  split; [vm_compute; reflexivity |].
  apply (recolor_is_palette_lookup (NdArray (2, 2)%nat [11; 21; 99; 250])
           Example.palette); vm_compute; reflexivity.
Defined.

Lemma recolor_pixel_colour data cm frame r c code :
  recolor data cm = Ok frame →
  pixel data r c = Some code →
  pixel frame r c = Some (colour cm code).
Proof.
  intros Hr Hd. destruct (recolor_ok _ _ _ _ _ _ Hr Hd) as (_ & Habs & Hpres).
  unfold colour. destruct (cm !! code) as [rgb |].
  - destruct (Hpres rgb eq_refl) as (px & Hb & ->).
    by rewrite (entry_pixel_ok _ _ Hb).
  - by apply Habs.
Qed.

(** X2. Which colormaps are accepted: recoloring returns a frame exactly
    when every colormap entry has one value or at least four; otherwise it
    raises ValueError.  The grid plays no part in this. *)
Theorem recolor_accepts_entries_of_1_or_4 (data : ndarray Z)
    (cm : gmap Z (list Byte.byte)) :
  (is_ok (recolor data cm) = true ↔
   ∀ code rgb, cm !! code = Some rgb →
     length rgb = 1%nat ∨ (4 ≤ length rgb)%nat) ∧
  (is_ok (recolor data cm) = false → recolor data cm = Raise ValueError).
Proof.
  split.
  - unfold recolor. rewrite recolor_items_accepts. split.
    + intros Hall code rgb Hcm. apply broadcast4_accepts.
      apply (Hall code). by apply elem_of_map_to_list.
    + intros Hall code rgb Hin. apply broadcast4_accepts.
      apply (Hall code). by apply elem_of_map_to_list.
  - destruct (recolor data cm) as [frame | e] eqn:Hr; [done |].
    intros _. unfold recolor in Hr. by apply recolor_items_raise in Hr as ->.
Qed.

(** ** The run in closed form *)

Section RunFacts.
Context {Geometry CRS : Type}.
Implicit Types (w : World Geometry CRS) (s : State Geometry CRS).
Implicit Types (evs : list (Event Geometry CRS)).

Lemma process_year_eq w state county images year s :
  process_year w state county images year s =
    (frame ← year_result w state county year; Ok (images ++ [frame]),
     {| trace := trace s ++ year_trace w state county year; fs := fs s |}).
Proof.
  unfold process_year, with_open, closing, year_result, year_trace.
  unfold mbind at 1 2 3. unfold M_bind at 1 2 3.
  unfold emit at 1 2. unfold lift at 1. simpl.
  destruct (rio_open w year) as [src | e]; simpl.
  2: { unfold log. simpl. by rewrite <- ?app_assoc. }
  unfold mbind at 1. unfold M_bind at 1. rewrite get_extent_run.
  destruct (boundary w state county) as [ext | e] eqn:Hb; simpl.
  2: { unfold log. simpl. rewrite <- ?app_assoc. simpl.
       by rewrite <- ?app_assoc. }
  assert (is_ok (rio_open w 1985) = true) as ->.
  { unfold boundary in Hb. by destruct (rio_open w 1985). }
  unfold mbind at 1 2 3. unfold M_bind, emit, lift, log. simpl.
  destruct (clip src [ext]) as [data |]; simpl.
  - destruct (recolor_src src data); simpl; by rewrite <- ?app_assoc.
  - by rewrite <- ?app_assoc.
Qed.

Lemma for_years_eq w state county years images s :
  for_years w state county years images s =
    (years_result w state county years images,
     {| trace := trace s ++ years_trace w state county years; fs := fs s |}).
Proof.
  revert images s. induction years as [| year rest IH]; intros images s; simpl.
  - rewrite app_nil_r. by destruct s.
  - unfold mbind at 1. unfold M_bind. rewrite process_year_eq.
    destruct (year_result w state county year) as [frame | e]; simpl.
    + rewrite IH. simpl. by rewrite <- ?app_assoc.
    + by rewrite app_nil_r.
Qed.

(** [main] computes [main_outcome]. *)
Lemma main_eq w start stop step state county files :
  run (main w start stop step state county) files =
    main_outcome w start stop step state county files.
Proof.
  unfold run, main, main_outcome.
  unfold mbind at 1. unfold M_bind at 1. unfold lift at 1.
  destruct (py_range start stop step) as [years | e]; [| done].
  unfold mbind at 1. unfold M_bind at 1. rewrite for_years_eq. simpl.
  destruct (years_result w state county years []) as [images | e]; [| done].
  unfold mbind, M_bind, emit, mimsave, open_read, log. simpl.
  destruct (imageio_encode w "nlcd.gif" _) as [encoded | e partial]; simpl.
  - rewrite lookup_insert_eq. simpl. by rewrite <- ?app_assoc.
  - by rewrite <- ?app_assoc.
Qed.

(** What one iteration shows in each reading of the trace. *)
Lemma year_trace_calls w state county year :
  let evs := year_trace w state county year in
  download_years evs = [year] ∧
  mimsave_calls evs = [] ∧ displayed evs = [] ∧
  (is_ok (year_result w state county year) = true → clip_years evs = [year]) ∧
  (is_ok (boundary w state county) = false → clip_years evs = []) ∧
  close_years evs ≡ₚ filter (λ y, is_ok (rio_open w y) = true) (open_years evs).
Proof.
  unfold year_trace, year_result, download_years, mimsave_calls, displayed,
    clip_years, close_years, open_years.
  destruct (rio_open w year) as [src | e] eqn:Hy;
    destruct (boundary w state county) as [ext | eb] eqn:Hb;
    destruct (rio_open w 1985) as [src85 | e85] eqn:H85;
    try (unfold boundary in Hb; rewrite H85 in Hb; discriminate Hb);
    simpl; rewrite ?filter_cons, ?filter_nil, ?Hy, ?H85; simpl;
    repeat split; try done; try apply perm_swap.
Qed.

Lemma years_trace_cons w state county year rest :
  years_trace w state county (year :: rest) =
    year_trace w state county year ++
    if is_ok (year_result w state county year)
    then years_trace w state county rest else [].
Proof. reflexivity. Qed.

Lemma years_result_cons w state county year rest images :
  years_result w state county (year :: rest) images =
    (frame ← year_result w state county year;
     years_result w state county rest (images ++ [frame])).
Proof. reflexivity. Qed.

Lemma years_trace_app w state county pre post :
  is_ok (years_result w state county pre []) = true →
  years_trace w state county (pre ++ post) =
    years_trace w state county pre ++ years_trace w state county post.
Proof.
  generalize (@nil Frame) as images.
  induction pre as [| y pre IH]; intros images; [done |].
  rewrite <- app_comm_cons, !years_trace_cons, years_result_cons.
  destruct (year_result w state county y) as [frame | e];
    cbn [is_ok mbind result_bind]; [| done].
  intros Hok. by rewrite (IH _ Hok), <- app_assoc.
Qed.

Lemma years_result_app w state county pre post images :
  years_result w state county (pre ++ post) images =
    (images' ← years_result w state county pre images;
     years_result w state county post images').
Proof.
  revert images. induction pre as [| y pre IH]; intros images; [done |].
  rewrite <- app_comm_cons, !years_result_cons.
  destruct (year_result w state county y) as [frame | e];
    cbn [is_ok mbind result_bind]; [| done].
  apply IH.
Qed.

(** The frames of a loop that completes are the frames of its years, in
    order. *)
Lemma years_result_ok w state county years images images' :
  years_result w state county years images = Ok images' →
  ∃ new, images' = images ++ new ∧
    Forall2 (λ y f, year_result w state county y = Ok f) years new.
Proof.
  revert images. induction years as [| y rest IH]; intros images.
  - intros [= <-]. exists []. by rewrite app_nil_r.
  - rewrite years_result_cons.
    destruct (year_result w state county y) as [frame | e] eqn:Hy;
      cbn [is_ok mbind result_bind]; [| done].
    intros Hrest. destruct (IH _ Hrest) as (new & -> & Hall).
    exists (frame :: new). rewrite <- app_assoc. split; [done |].
    by constructor.
Qed.

Lemma years_trace_ok_calls w state county years images images' :
  years_result w state county years images = Ok images' →
  download_years (years_trace w state county years) = years ∧
  clip_years (years_trace w state county years) = years.
Proof.
  revert images. induction years as [| y rest IH]; intros images.
  - done.
  - rewrite years_result_cons, years_trace_cons.
    destruct (year_result w state county y) as [frame | e] eqn:Hy;
      cbn [is_ok mbind result_bind]; [| done].
    intros Hrest. destruct (IH _ Hrest) as [H1 H2].
    destruct (year_trace_calls w state county y) as (Hd & _ & _ & Hc & _).
    rewrite Hy in Hc. specialize (Hc eq_refl).
    unfold download_years, clip_years in *. rewrite !omap_app.
    by rewrite Hd, Hc, H1, H2.
Qed.

(** The loop never calls the encoder and never displays anything; it
    announces a prefix of the years; and it closes what it opened. *)
Lemma years_trace_calls w state county years :
  mimsave_calls (years_trace w state county years) = [] ∧
  displayed (years_trace w state county years) = [] ∧
  download_years (years_trace w state county years) `prefix_of` years ∧
  close_years (years_trace w state county years) ≡ₚ
    filter (λ y, is_ok (rio_open w y) = true)
           (open_years (years_trace w state county years)).
Proof.
  induction years as [| y rest (H1 & H2 & H3 & H4)].
  - repeat split; try done.
  - rewrite years_trace_cons.
    destruct (year_trace_calls w state county y) as (Hd & Hm & Hs & _ & _ & Hb).
    unfold mimsave_calls, displayed, download_years, close_years, open_years
      in *.
    rewrite !omap_app, Hm, Hs, Hd, filter_app.
    destruct (is_ok (year_result w state county y)).
    + rewrite H1, H2. repeat split; try done.
      * by apply prefix_cons.
      * by rewrite Hb, H4.
    + repeat split; try done.
      * apply prefix_cons. apply prefix_nil.
      * cbn [omap list_omap]. rewrite filter_nil, !app_nil_r. exact Hb.
Qed.


Lemma years_result_total w state county pre images :
  Forall (λ y, is_ok (year_result w state county y) = true) pre →
  is_ok (years_result w state county pre images) = true.
Proof.
  intros Hall. revert images.
  induction Hall as [| y pre Hy _ IH]; intros images; [done |].
  rewrite years_result_cons.
  destruct (year_result w state county y); [| done]. apply IH.
Qed.

(** X3. No tile handle is leaked: in every run, whatever its outcome, the
    tiles closed are exactly the tiles whose opening succeeded (each as
    often as it was opened), also when an iteration raised in between. *)
Theorem every_opened_tile_is_closed w start stop step state county files :
  let tr := trace (snd (run (main w start stop step state county) files)) in
  close_years tr ≡ₚ filter (λ y, is_ok (rio_open w y) = true) (open_years tr).
Proof.
  rewrite main_eq. unfold main_outcome.
  destruct (py_range start stop step) as [years | e]; [| done].
  destruct (years_trace_calls w state county years) as (_ & _ & _ & Hbal).
  destruct (years_result w state county years []) as [images | e]; [| done].
  destruct (imageio_encode w "nlcd.gif" _); simpl;
    unfold close_years, open_years in *; rewrite !omap_app, filter_app;
    simpl; rewrite filter_nil, !app_nil_r; exact Hbal.
Qed.

(** The tiles one iteration opens: its own, then the 1985 tile if its own
    opened. *)
Lemma year_trace_opens w state county year :
  open_years (year_trace w state county year) =
    year :: (if is_ok (rio_open w year) then [1985] else []).
Proof.
  unfold year_trace, open_years.
  destruct (rio_open w year) as [src | e];
    destruct (boundary w state county) as [ext | eb];
    destruct (rio_open w 1985) as [src85 | e85]; reflexivity.
Qed.

Lemma years_trace_ok_opens w state county years images images' :
  years_result w state county years images = Ok images' →
  open_years (years_trace w state county years) =
    flat_map (λ y, [y; 1985]) years.
Proof.
  revert images. induction years as [| y rest IH]; intros images.
  - done.
  - rewrite years_result_cons, years_trace_cons.
    destruct (year_result w state county y) as [frame | e] eqn:Hy;
      cbn [is_ok mbind result_bind]; [| done].
    intros Hrest. unfold open_years in *. rewrite omap_app.
    rewrite (IH _ Hrest). fold (open_years (year_trace w state county y)).
    rewrite year_trace_opens.
    unfold year_result in Hy. by destruct (rio_open w y).
Qed.

(** X4. The run stops at the first year that fails: when the years before
    it give frames and its own iteration raises, [main] raises that same
    exception; the years announced are the earlier years and the failing
    one, the tiles opened are theirs and the 1985 tile, so no later year is
    announced or opened; the encoder is never called, nothing is displayed
    and the file system is as it was. *)
Theorem main_stops_at_first_failing_year w start stop step state county files
    pre year post e :
  py_range start stop step = Ok (pre ++ year :: post) →
  Forall (λ y, is_ok (year_result w state county y) = true) pre →
  year_result w state county year = Raise e →
  ∃ s', run (main w start stop step state county) files = (Raise e, s') ∧
    fs s' = files ∧
    download_years (trace s') = pre ++ [year] ∧
    open_years (trace s') =
      (flat_map (λ y, [y; 1985]) pre ++
       year :: (if is_ok (rio_open w year) then [1985] else [])) ∧
    (∀ y, y ∈ post → y ∉ pre → y ≠ year → y ≠ 1985 →
       (y ∉ download_years (trace s')) ∧ (y ∉ open_years (trace s'))) ∧
    mimsave_calls (trace s') = [] ∧
    displayed (trace s') = [].
Proof.
  intros Hr Hpre Hy. rewrite main_eq. unfold main_outcome. rewrite Hr.
  pose proof (years_result_total w state county pre [] Hpre) as Hok.
  rewrite years_result_app.
  destruct (years_result w state county pre []) as [images |] eqn:Hres;
    [| done].
  cbn [mbind result_bind]. rewrite years_result_cons, Hy.
  cbn [mbind result_bind]. eexists. split; [reflexivity |]. cbn [trace fs].
  rewrite years_trace_app by (by rewrite Hres).
  rewrite years_trace_cons, Hy. cbn [is_ok]. rewrite app_nil_r.
  destruct (years_trace_ok_calls _ _ _ _ _ _ Hres) as [Hd _].
  pose proof (years_trace_ok_opens _ _ _ _ _ _ Hres) as Ho.
  pose proof (year_trace_opens w state county year) as Ho'.
  destruct (years_trace_calls w state county pre) as (Hm & Hs & _).
  destruct (year_trace_calls w state county year) as (Hd' & Hm' & Hs' & _).
  unfold download_years, open_years, mimsave_calls, displayed in *.
  rewrite !omap_app, Hd, Hd', Ho, Ho', Hm, Hm', Hs, Hs'.
  split; [done |]. split; [done |]. split; [done |]. split; [| done].
  intros y _ Hpre' Hyear H85. split.
  - rewrite elem_of_app, list_elem_of_singleton. by intros [? | ?].
  - rewrite elem_of_app. intros [Hin | Hin].
    + apply list_elem_of_In, in_flat_map in Hin as (y' & Hy' & Hin).
      apply list_elem_of_In in Hy'. simpl in Hin.
      destruct Hin as [<- | [<- | []]]; done.
    + apply elem_of_cons in Hin as [-> | Hin]; [done |].
      destruct (is_ok (rio_open w year)).
      * apply list_elem_of_singleton in Hin. done.
      * by apply elem_of_nil in Hin.
Qed.

(** X5. Every request depends on the 1985 tile: when it cannot be opened,
    a run over any non-empty range fails in its first iteration (with the
    error of the first year's own tile if that fails too, with the error of
    the 1985 tile otherwise), without a clipper or encoder call and without
    touching the file system. *)
Theorem main_needs_the_1985_tile w start stop step state county files
    year rest e :
  rio_open w 1985 = Raise e →
  py_range start stop step = Ok (year :: rest) →
  ∃ s', run (main w start stop step state county) files =
          (Raise (match rio_open w year with Raise e0 => e0 | Ok _ => e end), s') ∧
    fs s' = files ∧
    download_years (trace s') = [year] ∧
    clip_years (trace s') = [] ∧
    mimsave_calls (trace s') = [].
Proof.
  intros H85 Hr. rewrite main_eq. unfold main_outcome. rewrite Hr.
  assert (boundary w state county = Raise e) as Hb.
  { unfold boundary. by rewrite H85. }
  assert (year_result w state county year =
          Raise (match rio_open w year with Raise e0 => e0 | Ok _ => e end))
    as Hy.
  { unfold year_result. destruct (rio_open w year); [| done]. simpl.
    by rewrite Hb. }
  rewrite years_result_cons, years_trace_cons, Hy.
  cbn [mbind result_bind is_ok]. rewrite app_nil_r.
  eexists. split; [reflexivity |]. cbn [trace fs].
  destruct (year_trace_calls w state county year) as (Hd & Hm & _ & _ & Hc & _).
  rewrite Hb in Hc. by rewrite Hd, Hm, (Hc eq_refl).
Qed.

(** X6. A run that completes over n years opens 2 n tiles: before each
    year's clip the year's own tile and then the 1985 tile, the latter n
    times in all. *)
Theorem completed_run_opens_two_tiles_per_year w start stop step state county
    files s' :
  run (main w start stop step state county) files = (Ok tt, s') →
  ∃ years, py_range start stop step = Ok years ∧
    open_years (trace s') = flat_map (λ y, [y; 1985]) years ∧
    length (open_years (trace s')) = (2 * length years)%nat.
Proof.
  intros Hrun.
  destruct (main_ok _ _ _ _ _ _ _ _ Hrun)
    as (years & _ & _ & Hr & _ & _ & _ & _ & _ & Hopen & _).
  exists years. split; [done |]. split; [done |]. rewrite Hopen.
  clear. induction years as [| y rest IH]; simpl; lia.
Qed.

(** X7. What is in the working directory beforehand has no influence on a
    run: its result, its calls and what it displays are the same for any
    two initial file systems; in particular an [nlcd.gif] left by an
    earlier run is never what is displayed. *)
Theorem run_independent_of_files w start stop step state county
    (files files' : gmap string (list Byte.byte)) :
  fst (run (main w start stop step state county) files) =
    fst (run (main w start stop step state county) files') ∧
  trace (snd (run (main w start stop step state county) files)) =
    trace (snd (run (main w start stop step state county) files')).
Proof.
  rewrite !main_eq. unfold main_outcome.
  destruct (py_range start stop step) as [years | e]; [| done].
  destruct (years_result w state county years []) as [images | e]; [| done].
  by destruct (imageio_encode w "nlcd.gif" _).
Qed.

(** X8. Running the same request again on the files a completed run left
    behind gives the same result, the same calls and the same files. *)
Theorem completed_run_is_repeatable w start stop step state county files s1 :
  run (main w start stop step state county) files = (Ok tt, s1) →
  run (main w start stop step state county) (fs s1) = (Ok tt, s1).
Proof.
  rewrite !main_eq. unfold main_outcome.
  destruct (py_range start stop step) as [years | e]; [| done].
  destruct (years_result w state county years []) as [images | e]; [| done].
  destruct (imageio_encode w "nlcd.gif" _) as [encoded | e partial]; [| done].
  intros [= <-]. simpl. by rewrite insert_insert_eq.
Qed.


Lemma frame_of_year_result w state county year frame :
  frame_of w state county year frame ↔
  year_result w state county year = Ok frame.
Proof.
  unfold frame_of, year_result. split.
  - intros (src & ext & data & -> & -> & Hclip & Hrec). simpl.
    by rewrite Hclip.
  - destruct (rio_open w year) as [src |]; [| done]. simpl.
    destruct (boundary w state county) as [ext |]; [| done]. simpl.
    destruct (clip src [ext]) as [data |] eqn:Hclip; [| done]. simpl.
    intros Hrec. by exists src, ext, data.
Qed.

(** X9. What a frame shows: the frame of a year has the shape of the
    window read from that year's tile; a pixel the mask flags as outside the
    boundary has the colour of the no-data sentinel (zero when the colormap
    has no entry for the sentinel), and every other pixel has the colour of
    the class code read at that place. *)
Theorem frame_shows_colour_of_masked_code w state county year frame :
  year_result w state county year = Ok frame →
  ∃ src ext mask win data nd cm,
    rio_open w year = Ok src ∧ boundary w state county = Ok ext ∧
    raster_geometry_mask src [ext] = Ok (mask, win) ∧
    read src win = Ok data ∧ nodata src = Some nd ∧ colormap src = Ok cm ∧
    shape frame = shape data ∧
    ∀ r c d, pixel data r c = Some d →
      (pixel mask r c = Some true → pixel frame r c = Some (colour cm nd)) ∧
      (pixel mask r c = Some false → pixel frame r c = Some (colour cm d)).
Proof.
  intros Hy. apply frame_of_year_result in Hy
    as (src & ext & clipped & Hopen & Hb & Hclip & Hrec).
  unfold clip in Hclip.
  destruct (raster_geometry_mask src [ext]) as [[mask win] |] eqn:Hmask;
    [| done].
  simpl in Hclip. destruct (read src win) as [data |] eqn:Hread; [| done].
  simpl in Hclip.
  destruct (setitem_mask_ok _ _ _ _ Hclip) as (nd & Hnd & _ & Hso & _).
  unfold recolor_src in Hrec.
  destruct (colormap src) as [cm |] eqn:Hcm; [| done].
  simpl in Hrec.
  exists src, ext, mask, win, data, nd, cm. repeat split; try done.
  - pose proof Hrec as Hsh. unfold recolor in Hsh.
    apply recolor_items_shape in Hsh as [Hsh _]. simpl in Hsh. congruence.
  - intros Hm.
    destruct (setitem_mask_pixel _ _ _ _ r c d Hclip H) as (v & Hv & Ht & _).
    rewrite Hnd in Hv. injection Hv as <-.
    apply (recolor_pixel_colour clipped cm frame r c nd Hrec). by apply Ht.
  - intros Hm.
    destruct (setitem_mask_pixel _ _ _ _ r c d Hclip H) as (v & _ & _ & Hf).
    apply (recolor_pixel_colour clipped cm frame r c d Hrec). by apply Hf.
Qed.

(** X10. Whenever the encoder is called, it is handed one frame per year of
    the range, in the order of the range, and each frame is the frame of its
    own year. *)
Theorem encoder_gets_one_frame_per_year w start stop step state county files
    path out :
  MimSave path out ∈
    trace (snd (run (main w start stop step state county) files)) →
  ∃ years, py_range start stop step = Ok years ∧
    Forall2 (λ year frame, year_result w state county year = Ok frame)
      years (frames out) ∧
    Z.of_nat (length (frames out)) = range_len start stop step.
Proof.
  intros Hin.
  destruct (run (main w start stop step state county) files) as [r s'] eqn:Hrun.
  destruct (main_mimsave _ _ _ _ _ _ _ _ _ _ _ Hrun Hin)
    as (_ & _ & _ & (years & Hr & Hall) & _).
  exists years. split; [done |]. split.
  - eapply Forall2_impl; [exact Hall |]. intros y f.
    apply frame_of_year_result.
  - rewrite <- (Forall2_length _ _ _ Hall). by apply py_range_length.
Qed.

(** X11. How many frames: with a step of at least 1 and start < stop the
    encoder is handed (stop - start - 1) / step + 1 frames (integer
    division), and the year [stop] itself is never clipped. *)
Theorem frame_count_of_ascending_range w start stop step state county files
    path out :
  1 ≤ step → start < stop →
  MimSave path out ∈
    trace (snd (run (main w start stop step state county) files)) →
  Z.of_nat (length (frames out)) = (stop - start - 1) / step + 1 ∧
  stop ∉ clip_years
           (trace (snd (run (main w start stop step state county) files))).
Proof.
  intros Hstep Hlt Hin.
  destruct (run (main w start stop step state county) files) as [r s'] eqn:Hrun.
  destruct (main_mimsave _ _ _ _ _ _ _ _ _ _ _ Hrun Hin)
    as (_ & _ & _ & (years & Hr & Hall) & _).
  split.
  - rewrite <- (Forall2_length _ _ _ Hall), (py_range_length _ _ _ _ Hr).
    unfold range_len. destruct (Z.ltb_spec 0 step); [| lia].
    destruct (Z.ltb_spec start stop); [done | lia].
  - simpl. pose proof Hrun as Heq. rewrite main_eq in Heq.
    unfold main_outcome in Heq. rewrite Hr in Heq.
    destruct (py_range_ascending start stop step Hstep)
      as (years' & Hr' & Hmem & _).
    rewrite Hr in Hr'. injection Hr' as <-.
    assert (clip_years (trace s') = years) as ->.
    { destruct (years_result w state county years []) as [images | e] eqn:Hres.
      - destruct (years_trace_ok_calls _ _ _ _ _ _ Hres) as [_ Hc].
        destruct (imageio_encode w "nlcd.gif" _); injection Heq as <- <-;
          simpl; unfold clip_years in *; rewrite omap_app, Hc; simpl;
          by rewrite app_nil_r.
      - injection Heq as <- <-. simpl in Hin.
        destruct (years_trace_calls w state county years) as (Hm & _).
        exfalso.
        assert ((path, out) ∈ mimsave_calls (years_trace w state county years))
          as Hbad.
        { unfold mimsave_calls. apply list_elem_of_omap. by eexists. }
        rewrite Hm in Hbad. by apply elem_of_nil in Hbad. }
    intros Hstop. apply Hmem in Hstop as (k & _ & _ & Hbad). lia.
Qed.

Lemma py_range_descending start stop step :
  step < 0 →
  ∃ years, py_range start stop step = Ok years ∧
    (∀ y, y ∈ years ↔ ∃ k, 0 ≤ k ∧ y = start + k * step ∧ stop < y) ∧
    (∀ i j a b, years !! i = Some a → years !! j = Some b →
       (i < j)%nat → b < a).
Proof.
  intros Hstep.
  destruct (py_range start stop step) as [years | e] eqn:Hr.
  2: { rewrite py_range_ok in Hr by lia. done. }
  exists years. split; [done |].
  assert (Hlook : ∀ i a, years !! i = Some a →
            a = start + Z.of_nat i * step ∧ stop < a).
  { intros i a Hi. rewrite (py_range_lookup _ _ _ _ i Hr) in Hi.
    case_decide; [| done]. injection Hi as <-. split; [done |].
    apply range_len_neg_spec; lia. }
  split.
  - intros y. rewrite list_elem_of_lookup. split.
    + intros [i Hi]. apply Hlook in Hi as [-> ?]. exists (Z.of_nat i). lia.
    + intros (k & Hk & -> & Hlt). exists (Z.to_nat k).
      rewrite (py_range_lookup _ _ _ _ _ Hr). rewrite Z2Nat.id by done.
      rewrite decide_True; [done |]. apply range_len_neg_spec; lia.
  - intros i j a b Hi Hj Hij.
    apply Hlook in Hi as [-> _]. apply Hlook in Hj as [-> _]. nia.
Qed.

(** X12. With a negative step a run that completes has clipped, in this
    order, the years start, start + step, ... that are above [stop]: the
    animation runs backwards in time and [stop] is again excluded. *)
Theorem main_descends_for_negative_step w start stop step state county files
    s' :
  step < 0 →
  run (main w start stop step state county) files = (Ok tt, s') →
  ∃ years, py_range start stop step = Ok years ∧
    clip_years (trace s') = years ∧
    (∀ y, y ∈ years ↔ ∃ k, 0 ≤ k ∧ y = start + k * step ∧ stop < y) ∧
    (∀ i j a b, years !! i = Some a → years !! j = Some b →
       (i < j)%nat → b < a).
Proof.
  intros Hstep Hrun.
  destruct (main_ok _ _ _ _ _ _ _ _ Hrun)
    as (years & _ & _ & Hr & _ & _ & _ & Hclip & _).
  destruct (py_range_descending start stop step Hstep)
    as (years' & Hr' & Hmem & Hdesc).
  rewrite Hr in Hr'. injection Hr' as <-.
  exists years. split; [done |]. split; [done |]. split; [exact Hmem |].
  exact Hdesc.
Qed.

(** X13. How [get_extent] fails: when the 1985 tile cannot be opened its
    error is raised as it is and nothing is closed; when the tile opens but
    it or the boundary layer has no CRS, ValueError is raised and the tile
    is closed all the same.  Neither touches the file system. *)
Theorem get_extent_failures w state county files :
  (∀ e, rio_open w 1985 = Raise e →
     run (get_extent w state county) files =
       (Raise e, {| trace := [RioOpen 1985]; fs := files |})) ∧
  (∀ src, rio_open w 1985 = Ok src →
     profile_crs src = None ∨ crs (USA w) = None →
     run (get_extent w state county) files =
       (Raise ValueError,
        {| trace := [RioOpen 1985; RioClose 1985]; fs := files |})).
Proof.
  split.
  - intros e H85. unfold run. rewrite get_extent_run. unfold boundary.
    by rewrite H85.
  - intros src H85 Hnone. unfold run. rewrite get_extent_run. unfold boundary.
    rewrite H85. simpl. unfold extent_in, to_crs. simpl.
    destruct Hnone as [-> | ->]; [| done].
    by destruct (crs (USA w)).
Qed.

End RunFacts.

(** ** The request form *)

Lemma unique_from_elem seen l x :
  x ∈ unique_from seen l ↔ x ∈ l ∧ x ∉ seen.
Proof.
  revert seen. induction l as [| y l IH]; intros seen; simpl.
  - split; [by intros ?%elem_of_nil | by intros [?%elem_of_nil _]].
  - case_decide as Hy.
    + rewrite IH, elem_of_cons. split; [naive_solver |].
      intros [[-> | Hin] Hx]; [done | by split].
    + rewrite elem_of_cons, IH, !elem_of_cons. split.
      * intros [-> | (Hin & Hx)]; [by split; [left |] | naive_solver].
      * intros [[-> | Hin] Hx]; [by left |].
        destruct (decide (x = y)) as [-> | Hne]; [by left | right].
        split; [done |]. by intros [? | ?].
Qed.

Lemma unique_from_NoDup seen l : NoDup (unique_from seen l).
Proof.
  revert seen. induction l as [| y l IH]; intros seen; simpl.
  - constructor.
  - case_decide; [apply IH |]. constructor; [| apply IH].
    rewrite unique_from_elem. intros [_ Hy]. apply Hy. by left.
Qed.

(** [unique] keeps each value, once. *)
Lemma unique_spec l : NoDup (unique l) ∧ ∀ x, x ∈ unique l ↔ x ∈ l.
Proof.
  unfold unique. split; [apply unique_from_NoDup |].
  intros x. rewrite unique_from_elem. split; [by intros [? _] |].
  intros Hin. split; [done | apply not_elem_of_nil].
Qed.

Lemma selectbox_elem options index :
  options ≠ [] → selectbox options index ∈ options.
Proof.
  intros Hne. unfold selectbox.
  destruct (options !! index) as [x |] eqn:Hx.
  - by apply list_elem_of_lookup_2 in Hx.
  - destruct options as [| y rest]; [done |]. simpl. by left.
Qed.

Lemma number_input_within box entered :
  min_value box ≤ value box ≤ max_value box →
  within box entered →
  min_value box ≤ number_input box entered ≤ max_value box.
Proof.
  intros Hdef Hin. unfold number_input.
  destruct entered as [v |]; simpl; [by apply Hin | done].
Qed.

Section UiFacts.
Context {Geometry CRS : Type}.
Implicit Types (w : World Geometry CRS) (usa : GeoDataFrame Geometry CRS).

Lemma state_options_elem usa x :
  x ∈ unique (map NAME_1 (rows usa)) ↔ ∃ r, r ∈ rows usa ∧ NAME_1 r = x.
Proof.
  destruct (unique_spec (map NAME_1 (rows usa))) as (_ & ->).
  change (map NAME_1 (rows usa)) with (NAME_1 <$> rows usa).
  rewrite list_elem_of_fmap. naive_solver.
Qed.

Lemma county_options_elem usa state x :
  x ∈ unique (map NAME_2 (rows (query_state usa state))) ↔
  ∃ r, r ∈ rows usa ∧ NAME_1 r = state ∧ NAME_2 r = x.
Proof.
  destruct (unique_spec (map NAME_2 (rows (query_state usa state)))) as (_ & ->).
  change (map NAME_2 ?l) with (NAME_2 <$> l).
  rewrite list_elem_of_fmap. simpl. split.
  - intros (r & -> & Hin). apply list_elem_of_filter in Hin as [Hs Hin].
    by exists r.
  - intros (r & Hin & Hs & <-). exists r. split; [done |].
    by apply list_elem_of_filter.
Qed.

(** X14. The dropdowns: after the placeholder 'Select', the state list
    holds every state name of the layer exactly once, and the county list
    of a state holds exactly once every county name of the records of that
    state and no other name. *)
Theorem dropdowns_list_each_name_once usa state :
  (∃ names, state_options usa = "Select" :: names ∧ NoDup names ∧
     ∀ x, x ∈ names ↔ ∃ r, r ∈ rows usa ∧ NAME_1 r = x) ∧
  (∃ names, county_options usa state = "Select" :: names ∧ NoDup names ∧
     ∀ x, x ∈ names ↔ ∃ r, r ∈ rows usa ∧ NAME_1 r = state ∧ NAME_2 r = x).
Proof.
  split.
  - eexists. split; [reflexivity |].
    split; [apply unique_spec | apply state_options_elem].
  - eexists. split; [reflexivity |].
    split; [apply unique_spec | apply county_options_elem].
Qed.

(** X15. [ui] calls [main] only for names taken from the layer: in a
    request neither name is the placeholder 'Select', and the layer has a
    record with that state and county, so the boundary query of
    [get_extent] never comes back empty for a request of the form. *)
Theorem ui_requests_names_of_the_layer usa sess q :
  ui_request usa sess = Some q →
  req_state q ≠ "Select" ∧ req_county q ≠ "Select" ∧
  rows (query usa (req_state q) (req_county q)) ≠ [].
Proof.
  unfold ui_request. intros Hq.
  case_decide as Hcounty; [| done]. injection Hq as <-. simpl.
  case_decide as Hstate; [| done].
  set (state := selectbox (state_options usa) (state_index sess)) in *.
  set (county := selectbox (county_options usa state) (county_index sess)) in *.
  repeat split; try done.
  assert (county ∈ county_options usa state) as Hin.
  { by apply selectbox_elem. }
  unfold county_options in Hin. apply elem_of_cons in Hin as [Hbad | Hin];
    [done |].
  apply county_options_elem in Hin as (r & Hr & Hs & Hc).
  intros Hempty.
  assert (r ∈ filter (λ r, NAME_1 r = state ∧ NAME_2 r = county) (rows usa))
    as Hbad.
  { by apply list_elem_of_filter. }
  rewrite Hempty in Hbad. by apply elem_of_nil in Hbad.
Qed.

Lemma ui_request_values usa sess q :
  ui_request usa sess = Some q →
  req_start q = number_input start_box (start_entry sess) ∧
  req_stop q = number_input stop_box (stop_entry sess) ∧
  req_step q = number_input step_box (step_entry sess).
Proof.
  unfold ui_request. case_decide; [| done]. by intros [= <-].
Qed.

Lemma ui_requests_step_aux usa sess q :
  accepted sess → ui_request usa sess = Some q → 1 ≤ req_step q ≤ 10.
Proof.
  intros (_ & _ & Hstep) Hq.
  destruct (ui_request_values _ _ _ Hq) as (_ & _ & ->).
  apply (number_input_within step_box); [simpl; lia | done].
Qed.

Lemma ui_requests_bounds_aux usa sess q :
  accepted sess → ui_request usa sess = Some q →
  ∃ years, py_range (req_start q) (req_stop q) (req_step q) = Ok years ∧
    ∀ y, y ∈ years → 1985 ≤ y ≤ 2022.
Proof.
  intros Hacc Hq. pose proof (ui_requests_step_aux _ _ _ Hacc Hq) as H3.
  destruct Hacc as (Hstart & Hstop & _).
  destruct (ui_request_values _ _ _ Hq) as (Hs1 & Hs2 & _).
  pose proof (number_input_within start_box _ ltac:(simpl; lia) Hstart) as H1.
  pose proof (number_input_within stop_box _ ltac:(simpl; lia) Hstop) as H2.
  simpl in H1, H2. rewrite <- Hs1 in H1. rewrite <- Hs2 in H2.
  destruct (py_range_ascending (req_start q) (req_stop q) (req_step q)
              ltac:(lia)) as (years & Hr & Hmem & _).
  exists years. split; [done |].
  intros y Hy. apply Hmem in Hy as (k & Hk & -> & Hlt). nia.
Qed.

(** X16. The bounds of the form: for entries the widgets accept, a request
    has 1985 <= start, stop <= 2023 and 1 <= step <= 10; hence [range]
    cannot raise, it yields at most 38 years, and every year lies between
    1985 and 2022. *)
Theorem ui_requests_within_bounds usa sess q :
  accepted sess →
  ui_request usa sess = Some q →
  1985 ≤ req_start q ≤ 2023 ∧ 1985 ≤ req_stop q ≤ 2023 ∧
  1 ≤ req_step q ≤ 10 ∧
  ∃ years, py_range (req_start q) (req_stop q) (req_step q) = Ok years ∧
    (length years ≤ 38)%nat ∧
    ∀ y, y ∈ years → 1985 ≤ y ≤ 2022.
Proof.
  intros (Hstart & Hstop & Hstep) Hq.
  destruct (ui_request_values _ _ _ Hq) as (-> & -> & ->).
  pose proof (number_input_within start_box _ ltac:(simpl; lia) Hstart) as H1.
  pose proof (number_input_within stop_box _ ltac:(simpl; lia) Hstop) as H2.
  pose proof (number_input_within step_box _ ltac:(simpl; lia) Hstep) as H3.
  simpl in H1, H2, H3.
  set (start := number_input start_box (start_entry sess)) in *.
  set (stop := number_input stop_box (stop_entry sess)) in *.
  set (step := number_input step_box (step_entry sess)) in *.
  repeat split; try lia.
  destruct (py_range_ascending start stop step ltac:(lia))
    as (years & Hr & Hmem & _).
  exists years. split; [done |]. split.
  - pose proof (py_range_length _ _ _ _ Hr) as Hlen.
    assert (range_len start stop step ≤ 38); [| lia].
    unfold range_len. destruct (Z.ltb_spec 0 step); [| lia].
    destruct (Z.ltb_spec start stop); [| lia].
    assert ((stop - start - 1) / step ≤ stop - start - 1); [| lia].
    apply Z.div_le_upper_bound; [lia | nia].
  - intros y Hy. apply Hmem in Hy as (k & Hk & -> & Hlt). nia.
Qed.

Lemma open_years_of_loop w state county years y :
  y ∈ open_years (years_trace w state county years) → y ∈ years ∨ y = 1985.
Proof.
  induction years as [| y0 rest IH].
  - by intros ?%elem_of_nil.
  - rewrite years_trace_cons. unfold open_years in *. rewrite omap_app.
    rewrite elem_of_app. intros [Hin | Hin].
    + unfold year_trace in Hin.
      destruct (rio_open w y0), (rio_open w 1985),
        (boundary w state county); simpl in Hin;
        repeat (apply elem_of_cons in Hin as [-> | Hin];
                [first [by left; left | by right] |]);
        by apply elem_of_nil in Hin.
    + destruct (is_ok (year_result w state county y0)).
      * destruct (IH Hin) as [? | ?]; [left; by right | by right].
      * by apply elem_of_nil in Hin.
Qed.

(** X17. Through the form, only tiles of the years 1985 to 2022 are ever
    opened: whatever the widgets hold (within their bounds) and whatever
    the outcome, every tile opened by a run of [ui] is one of these. *)
Theorem ui_opens_only_tiles_of_1985_to_2022 w sess files y :
  accepted sess →
  y ∈ open_years (trace (snd (run (ui w sess) files))) →
  1985 ≤ y ≤ 2022.
Proof.
  intros Hacc. unfold ui.
  destruct (ui_request (USA w) sess) as [q |] eqn:Hq.
  2: { by intros ?%elem_of_nil. }
  destruct (ui_requests_bounds_aux (USA w) sess q Hacc Hq)
    as (years & Hr & Hmem).
  rewrite main_eq. unfold main_outcome. rewrite Hr.
  assert (∀ tail, open_years tail = [] →
            y ∈ open_years (years_trace w (req_state q) (req_county q) years
                              ++ tail) → 1985 ≤ y ≤ 2022) as Hopen.
  { intros tail Htail. unfold open_years in *. rewrite omap_app, Htail.
    rewrite app_nil_r. intros Hin.
    destruct (open_years_of_loop _ _ _ _ _ Hin) as [Hy | ->]; [| lia].
    by apply Hmem. }
  destruct (years_result w (req_state q) (req_county q) years []).
  - destruct (imageio_encode w "nlcd.gif" _); simpl; by apply Hopen.
  - simpl. intros Hin. apply (Hopen []); [done |]. by rewrite app_nil_r.
Qed.

(** X18. Nothing happens until both names are chosen: while the state or
    the county dropdown is at its first entry, [ui] returns without
    opening a tile, calling the encoder, writing a file or displaying
    anything. *)
Theorem ui_idle_until_names_chosen w sess files :
  state_index sess = 0%nat ∨ county_index sess = 0%nat →
  run (ui w sess) files = (Ok tt, {| trace := []; fs := files |}).
Proof.
  intros Hidx. unfold ui.
  assert (ui_request (USA w) sess = None) as ->; [| done].
  unfold ui_request, selectbox, state_options, county_options.
  destruct Hidx as [-> | ->]; simpl; repeat case_decide; done.
Qed.

(** X19. The form does not compare start and stop: a request with
    stop <= start is passed on to [main], which then clips no year and
    hands the encoder an empty list of frames. *)
Theorem ui_passes_on_empty_ranges w sess files q :
  accepted sess →
  ui_request (USA w) sess = Some q →
  req_stop q ≤ req_start q →
  let tr := trace (snd (run (ui w sess) files)) in
  open_years tr = [] ∧ clip_years tr = [] ∧
  mimsave_calls tr = [("nlcd.gif", {| frames := []; fps := 4; loop := 0 |})].
Proof.
  intros Hacc Hq Hle.
  pose proof (ui_requests_step_aux (USA w) sess q Hacc Hq) as Hstep.
  unfold ui. rewrite Hq.
  rewrite (main_empty_range w _ _ _ (req_state q) (req_county q) files
             (py_range_backwards (req_start q) (req_stop q) (req_step q)
                ltac:(lia) Hle)).
  by destruct (imageio_encode w "nlcd.gif" _).
Qed.

End UiFacts.

(** ** The further properties on the example worlds *)

Lemma recolor_accepts_entries_of_1_or_4_witness :
  recolor (NdArray (1, 1)%nat [11]) {[ 11 := [Byte.x46; Byte.x6b; Byte.x9f] ]}
    = Raise ValueError.
Proof.
  apply (proj2 (recolor_accepts_entries_of_1_or_4 (NdArray (1, 1)%nat [11])
                  {[ 11 := [Byte.x46; Byte.x6b; Byte.x9f] ]})).
  vm_compute. reflexivity.
Defined.

Lemma main_stops_at_first_failing_year_witness :
  ∃ s', run (main Example.world 1985 1988 1 "Texas" "Travis") ∅
          = (Raise RasterioIOError, s') ∧
    fs s' = ∅ ∧
    download_years (trace s') = [1985] ++ [1986] ∧
    open_years (trace s') =
      (flat_map (λ y, [y; 1985]) [1985] ++
       1986 :: (if is_ok (rio_open Example.world 1986) then [1985] else [])) ∧
    (∀ y, y ∈ [1987] → y ∉ [1985] → y ≠ 1986 → y ≠ 1985 →
       (y ∉ download_years (trace s')) ∧ (y ∉ open_years (trace s'))) ∧
    mimsave_calls (trace s') = [] ∧
    displayed (trace s') = [].
Proof.
  apply (main_stops_at_first_failing_year Example.world 1985 1988 1
           "Texas" "Travis" ∅ [1985] 1986 [1987] RasterioIOError).
  - vm_compute. reflexivity.
  - constructor; [vm_compute; reflexivity | constructor].
  - vm_compute. reflexivity.
Defined.

Lemma main_needs_the_1985_tile_witness :
  ∃ s', run (main Variants.world_without_1985 1990 1991 1 "Texas" "Travis") ∅
          = (Raise (match rio_open Variants.world_without_1985 1990 with
                    | Raise e0 => e0
                    | Ok _ => RasterioIOError
                    end), s') ∧
    fs s' = ∅ ∧
    download_years (trace s') = [1990] ∧
    clip_years (trace s') = [] ∧
    mimsave_calls (trace s') = [].
Proof.
  apply (main_needs_the_1985_tile Variants.world_without_1985 1990 1991 1
           "Texas" "Travis" ∅ 1990 [] RasterioIOError);
    vm_compute; reflexivity.
Defined.

Lemma completed_run_opens_two_tiles_per_year_witness :
  ∃ years, py_range 1985 1994 8 = Ok years ∧
    open_years (trace (snd Runs.scenario)) = flat_map (λ y, [y; 1985]) years ∧
    length (open_years (trace (snd Runs.scenario))) = (2 * length years)%nat.
Proof.
  apply (completed_run_opens_two_tiles_per_year Example.world 1985 1994 8
           "Texas" "Travis" ∅ (snd Runs.scenario) scenario_run).
Defined.

Lemma completed_run_is_repeatable_witness :
  run (main Example.world 1985 1994 8 "Texas" "Travis")
      (fs (snd Runs.scenario))
    = (Ok tt, snd Runs.scenario).
Proof.
  apply (completed_run_is_repeatable Example.world 1985 1994 8
           "Texas" "Travis" ∅ (snd Runs.scenario) scenario_run).
Defined.

Lemma frame_shows_colour_of_masked_code_witness :
  ∃ src ext mask win data nd cm,
    rio_open Example.world 1993 = Ok src ∧
    boundary Example.world "Texas" "Travis" = Ok ext ∧
    raster_geometry_mask src [ext] = Ok (mask, win) ∧
    read src win = Ok data ∧ nodata src = Some nd ∧ colormap src = Ok cm ∧
    shape Variants.frame_1993 = shape data ∧
    ∀ r c d, pixel data r c = Some d →
      (pixel mask r c = Some true →
       pixel Variants.frame_1993 r c = Some (colour cm nd)) ∧
      (pixel mask r c = Some false →
       pixel Variants.frame_1993 r c = Some (colour cm d)).
Proof.
  apply (frame_shows_colour_of_masked_code Example.world "Texas" "Travis"
           1993 Variants.frame_1993).
  vm_compute. reflexivity.
Defined.

Lemma scenario_mimsave :
  ∃ out, MimSave (Geometry := Example.Geom) (CRS := Example.Epsg)
           "nlcd.gif" out ∈
         trace (snd (run (main Example.world 1985 1994 8 "Texas" "Travis") ∅)) ∧
    length (frames out) = 2%nat.
Proof.
  eexists. split.
  - apply (list_elem_of_lookup_2 _ 13%nat). vm_compute. reflexivity.
  - reflexivity.
Defined.

Lemma encoder_gets_one_frame_per_year_witness :
  ∃ out years, py_range 1985 1994 8 = Ok years ∧
    Forall2 (λ year frame,
               year_result Example.world "Texas" "Travis" year = Ok frame)
      years (frames out) ∧
    Z.of_nat (length (frames out)) = range_len 1985 1994 8.
Proof.
  destruct scenario_mimsave as (out & Hin & _). exists out.
  apply (encoder_gets_one_frame_per_year Example.world 1985 1994 8
           "Texas" "Travis" ∅ "nlcd.gif" out Hin).
Defined.

Lemma frame_count_of_ascending_range_witness :
  ∃ out, Z.of_nat (length (frames out)) = (1994 - 1985 - 1) / 8 + 1 ∧
    1994 ∉ clip_years
             (trace (snd (run (main Example.world 1985 1994 8
                                 "Texas" "Travis") ∅))).
Proof.
  destruct scenario_mimsave as (out & Hin & _). exists out.
  apply (frame_count_of_ascending_range Example.world 1985 1994 8
           "Texas" "Travis" ∅ "nlcd.gif" out ltac:(lia) ltac:(lia) Hin).
Defined.

Lemma main_descends_for_negative_step_witness :
  ∃ years, py_range 1993 1984 (-8) = Ok years ∧
    clip_years (trace (snd Variants.descending)) = years ∧
    (∀ y, y ∈ years ↔ ∃ k, 0 ≤ k ∧ y = 1993 + k * (-8) ∧ 1984 < y) ∧
    (∀ i j a b, years !! i = Some a → years !! j = Some b →
       (i < j)%nat → b < a).
Proof.
  apply (main_descends_for_negative_step Example.world 1993 1984 (-8)
           "Texas" "Travis" ∅ (snd Variants.descending) ltac:(lia)).
  vm_compute. reflexivity.
Defined.

Lemma get_extent_failures_witness :
  run (get_extent Variants.world_naive "Texas" "Travis") ∅ =
    (Raise ValueError, {| trace := [RioOpen 1985; RioClose 1985]; fs := ∅ |}).
Proof.
  apply (proj2 (get_extent_failures Variants.world_naive "Texas" "Travis" ∅)
           (Example.tile [11; 11; 21; 21])).
  - reflexivity.
  - right. reflexivity.
Defined.

Lemma chosen_accepted : accepted Variants.chosen.
Proof.
  unfold accepted, within. split; [| split]; intros ? Hv; discriminate Hv.
Defined.

Lemma reversed_accepted : accepted Variants.reversed.
Proof.
  unfold accepted, within.
  split; [| split]; intros ? Hv; try discriminate Hv; injection Hv as <-;
    simpl; lia.
Defined.

Lemma ui_requests_names_of_the_layer_witness :
  "Texas" ≠ "Select" ∧ "Travis" ≠ "Select" ∧
  rows (query Example.usa "Texas" "Travis") ≠ [].
Proof.
  apply (ui_requests_names_of_the_layer Example.usa Variants.chosen
           {| req_start := 1985; req_stop := 2023; req_step := 8;
              req_state := "Texas"; req_county := "Travis" |}).
  vm_compute. reflexivity.
Defined.

Lemma ui_requests_within_bounds_witness :
  1985 ≤ 1985 ≤ 2023 ∧ 1985 ≤ 2023 ≤ 2023 ∧ 1 ≤ 8 ≤ 10 ∧
  ∃ years, py_range 1985 2023 8 = Ok years ∧
    (length years ≤ 38)%nat ∧
    ∀ y, y ∈ years → 1985 ≤ y ≤ 2022.
Proof.
  apply (ui_requests_within_bounds Example.usa Variants.chosen
           {| req_start := 1985; req_stop := 2023; req_step := 8;
              req_state := "Texas"; req_county := "Travis" |}
           chosen_accepted).
  vm_compute. reflexivity.
Defined.

Lemma ui_opens_only_tiles_of_1985_to_2022_witness :
  1993 ∈ open_years (trace (snd (run (ui Example.world Variants.chosen) ∅))) ∧
  1985 ≤ 1993 ≤ 2022.
Proof.
  assert (1993 ∈ open_years
            (trace (snd (run (ui Example.world Variants.chosen) ∅)))) as Hin.
  { apply (list_elem_of_lookup_2 _ 2%nat). vm_compute. reflexivity. }
  split; [exact Hin |].
  apply (ui_opens_only_tiles_of_1985_to_2022 Example.world Variants.chosen ∅
           1993 chosen_accepted Hin).
Defined.

Lemma ui_idle_until_names_chosen_witness :
  run (ui Example.world Variants.untouched) ∅
    = (Ok tt, {| trace := []; fs := ∅ |}).
Proof.
  apply (ui_idle_until_names_chosen Example.world Variants.untouched ∅).
  left. reflexivity.
Defined.

Lemma ui_passes_on_empty_ranges_witness :
  let tr := trace (snd (run (ui Example.world Variants.reversed) ∅)) in
  open_years tr = [] ∧ clip_years tr = [] ∧
  mimsave_calls tr = [("nlcd.gif", {| frames := []; fps := 4; loop := 0 |})].
Proof.
  apply (ui_passes_on_empty_ranges Example.world Variants.reversed ∅
           {| req_start := 2000; req_stop := 1990; req_step := 8;
              req_state := "Texas"; req_county := "Travis" |}
           reversed_accepted).
  - vm_compute. reflexivity.
  - simpl. lia.
Defined.
